(** * sf-skills CLI adapters: OpenCode, Codex and Gemini

    A shallow embedding of [tools/cli_adapters/{opencode,codex,gemini}.py]
    and the properties of the manifest transformation, of the detection and
    bundling of shared modules, and of the install path policy. *)

From Stdlib Require Import NArith Ascii String.
From stdpp Require Import base option list gmap.

Local Open Scope list_scope.

(** ** Python strings

    A Python [str] is a sequence of Unicode code points.  Every string
    literal of the adapters is plain ASCII and is written [py "..."]. *)

Definition char := N.
Definition pystr := list char.

Definition py (s : string) : pystr := map N_of_ascii (list_ascii_of_string s).

(** [s.startswith(p)] *)
Fixpoint startswith (p s : pystr) : bool :=
  match p, s with
  | [], _ => true
  | _ :: _, [] => false
  | a :: p', b :: s' => (a =? b)%N && startswith p' s'
  end.

(** [needle in hay]: some tail of [hay] starts with [needle]. *)
Fixpoint str_in (needle hay : pystr) : bool :=
  startswith needle hay ||
  match hay with
  | [] => false
  | _ :: t => str_in needle t
  end.

(** The specification of [in]: [needle] occurs as a contiguous block. *)
Definition occurs_in (needle hay : pystr) : Prop :=
  exists a b, hay = a ++ needle ++ b.

(** Number of positions of [hay] at which [needle] starts. *)
Fixpoint occurrences (needle hay : pystr) : nat :=
  (if startswith needle hay then 1 else 0) +
  match hay with
  | [] => 0
  | _ :: t => occurrences needle t
  end.

(** ** Left-to-right substitution

    [str.replace] and [re.sub] both scan the text from the left, replace
    the leftmost match, and resume right after it; matches never overlap.
    A matcher looks at the text at the current position and, on a match,
    gives the replacement text and how many characters the match takes
    after its first one.  [skip] counts the characters of the current match
    that are still to be dropped. *)

Definition matcher := pystr -> option (pystr * nat).

Fixpoint scan_sub (m : matcher) (skip : nat) (s : pystr) : pystr :=
  match s with
  | [] => []
  | c :: t =>
      match skip with
      | S k => scan_sub m k t
      | O =>
          match m s with
          | Some (rep, k) => rep ++ scan_sub m k t
          | None => c :: scan_sub m 0 t
          end
      end
  end.

(** [s.replace(old, new)].  For an empty [old] Python inserts [new] before
    every character and at the end. *)
Definition replace_matcher (old new : pystr) : matcher :=
  fun s => if startswith old s then Some (new, pred (length old)) else None.

Definition str_replace (old new s : pystr) : pystr :=
  match old with
  | [] => new ++ flat_map (fun c => c :: new) s
  | _ :: _ => scan_sub (replace_matcher old new) 0 s
  end.

(** ** Overlaps

    Two texts are compatible when one is a prefix of the other, that is,
    when both can start at the same position of some text. *)
Definition compat (u v : pystr) : bool := startswith u v || startswith v u.

(** Some non-empty tail of [x] is compatible with [y]: an occurrence of [y]
    can start inside [x], or [x] can end inside an occurrence of [y]. *)
Fixpoint clash_tails (x y : pystr) : bool :=
  match x with
  | [] => false
  | _ :: t => compat x y || clash_tails t y
  end.

(** Some non-empty tail of [x] is a proper prefix of [h]: an occurrence of
    [h] can start inside [x] and run past its end. *)
Fixpoint runs_over (x h : pystr) : bool :=
  match x with
  | [] => false
  | _ :: t => startswith x h && negb (startswith h x) || runs_over t h
  end.


(** ** Regular expressions of the import rewrite

    Both patterns of [_rewrite_shared_imports] are a literal followed by
    the group [(\w+)], and both templates are a literal followed by [\1].
    On [str] patterns [\w] is Unicode aware: [[a-zA-Z0-9_]] below 128, and
    above it whatever the Unicode database calls alphanumeric, which is
    taken here as the table [unicode_word]. *)

Definition ascii_word (c : char) : bool :=
  ((48 <=? c) && (c <=? 57) || (65 <=? c) && (c <=? 90) ||
   (97 <=? c) && (c <=? 122) || (c =? 95))%N.

Section Regex.
Variable unicode_word : char -> bool.

Definition is_word (c : char) : bool :=
  if (c <? 128)%N then ascii_word c else unicode_word c.

(** The longest run of word characters at the head of the text: what the
    greedy [\w+] takes. *)
Fixpoint word_run (s : pystr) : pystr :=
  match s with
  | [] => []
  | c :: t => if is_word c then c :: word_run t else []
  end.

Definition word_matcher (lit rep : pystr) : matcher :=
  fun s =>
    if startswith lit s then
      match word_run (drop (length lit) s) with
      | [] => None
      | w => Some (rep ++ w, pred (length lit + length w))
      end
    else None.

(** [re.sub(lit + r'(\w+)', rep + r'\1', s)] *)
Definition re_sub_word (lit rep s : pystr) : pystr :=
  scan_sub (word_matcher lit rep) 0 s.
End Regex.

(** ** Errors, files and the output of a transformation *)

(** Why [read_text] fails, with what the Python exception carries: the
    file name for the two [OSError]s, the position and the reason for a
    decoding error.  Two files that cannot be read raise different
    exceptions. *)
Inductive read_failure :=
  | IsADirectoryError (filename : pystr)
  | PermissionError (filename : pystr)
  | UnicodeDecodeError (start : N) (reason : pystr).

(** The exceptions: what the inherited [transform_skill] raises without a
    manifest, and what [read_text] raises. *)
Inductive exn :=
  | MissingManifest
  | ReadError (why : read_failure).

Inductive result (A : Type) :=
  | Ok (a : A)
  | Raise (e : exn).
Arguments Ok {A} a.
Arguments Raise {A} e.

#[global] Instance result_ret : MRet result := fun A a => Ok a.
#[global] Instance result_bind : MBind result := fun A B f r =>
  match r with
  | Ok a => f a
  | Raise e => Raise e
  end.

(** The value of a script entry: text, or the bytes of a file that was not
    read as text. *)
Inductive file_content :=
  | Str (s : pystr)
  | Bytes (b : list Byte.byte).

(** Modelled from the spec: [SkillOutput] is declared in [base.py], which
    is not among the sources; it is a manifest text plus a mapping from
    relative path to file content.  [scripts] is the field the adapters
    read and write. *)
Record SkillOutput := {
  skill_md : pystr;
  scripts : gmap pystr file_content
}.

(** A [pathlib.Path] as the list of its components; [p / c]. *)
Definition Path := list pystr.
Definition joinpath (p : Path) (c : pystr) : Path := p ++ [c].
Infix "//" := joinpath (at level 40, left associativity).

(** What [Path.cwd()], [Path.home()] and [Path.exists()] answer. *)
Record Env := {
  cwd : Path;
  home : Path;
  path_exists : Path -> bool
}.

(** A file below the shared root: [read_text(encoding='utf-8')] returns its
    text or raises the exception of that file (a directory, bytes that are
    not UTF-8, no permission). *)
Inductive FileData :=
  | Text (s : pystr)
  | Unreadable (why : read_failure).

Definition read_text (d : FileData) : result pystr :=
  match d with
  | Text s => Ok s
  | Unreadable why => Raise (ReadError why)
  end.

(** Everything found below one directory, by path relative to it; [rglob]
    visits the entries in the order of the listing. *)
Definition Tree := list (pystr * FileData).

(** The two known subtrees of [self.shared_dir]; [None] when
    [exists()] is false. *)
Record SharedRoot := {
  lsp_engine : option Tree;
  code_analyzer : option Tree
}.

Definition endswith (suffix s : pystr) : bool := startswith (rev suffix) (rev s).

(** [dir.rglob("*" + ext)]: the entries whose name ends with [ext]. *)
Definition rglob (ext : pystr) (tree : Tree) : Tree :=
  List.filter (fun e => endswith ext (fst e)) tree.

(** [str(file_path.relative_to(self.shared_dir))] for a file of the
    subtree [dir]. *)
Definition rel_path (dir p : pystr) : pystr := dir ++ py "/" ++ p.

(** One [for file_path in dir.rglob(...)] loop of [_bundle_shared_modules]:
    read the file, rewrite its text, store it under its relative path. *)
Fixpoint stage_files (dir : pystr) (rewrite : pystr -> pystr) (files : Tree)
    (modules : gmap pystr file_content) : result (gmap pystr file_content) :=
  match files with
  | [] => Ok modules
  | (p, d) :: rest =>
      content ← read_text d;
      stage_files dir rewrite rest (<[rel_path dir p := Str (rewrite content)]> modules)
  end.

(** ** opencode.py

    The adapters inherit from [CLIAdapter] of [base.py], which is not among
    the sources.  What they use of it is taken as a parameter where it is
    used: [_common_skill_md_transforms], the inherited [transform_skill]
    reached through [super()], and the state of the directory
    [self.shared_dir]. *)

Module OpenCode.
Definition cli_name : pystr := py "opencode".

Definition default_install_path (env : Env) : Path :=
  let opencode_path := cwd env // py ".opencode" // py "skill" in
  let claude_path := cwd env // py ".claude" // py "skills" in
  if path_exists env claude_path then claude_path else opencode_path.

Definition opencode_section (skill_name : pystr) : pystr :=
  py "

---

## OpenCode CLI Usage

This skill is compatible with OpenCode CLI. To use:

```bash
# The skill is automatically loaded when placed in .opencode/skill/" ++ skill_name ++
  py "/
# OpenCode will discover it and make it available in conversations.

# To manually invoke validation scripts:
cd .opencode/skill/" ++ skill_name ++
  py "/scripts
python validate_*.py path/to/your/file
```

### Validation Scripts

The `scripts/` directory contains Python validation scripts that can be run
manually after editing files. In Claude Code, these run automatically via
PostToolUse hooks.

See `scripts/README.md` for detailed usage instructions.
".

Section Base.
Variable _common_skill_md_transforms : pystr -> pystr.

Definition transform_skill_md (content skill_name : pystr) : pystr :=
  let content := _common_skill_md_transforms content in
  if negb (str_in (py "## OpenCode CLI Usage") content)
  then content ++ opencode_section skill_name
  else content.
End Base.

Fixpoint needs_loop (values : list file_content) : bool :=
  match values with
  | [] => false
  | Str content :: rest =>
      if str_in (py "from shared") content || str_in (py "import shared") content
      then true
      else if str_in (py "lsp_client") content || str_in (py "code_analyzer") content
      then true
      else needs_loop rest
  | Bytes _ :: rest => needs_loop rest
  end.

Definition _needs_shared_modules (scripts : gmap pystr file_content) : bool :=
  needs_loop (map_to_list scripts).*2.

Section Bundle.
Variable unicode_word : char -> bool.

Definition _rewrite_shared_imports (content : pystr) : pystr :=
  let content :=
    re_sub_word unicode_word (py "from shared.") (py "from .shared.") content in
  let content :=
    re_sub_word unicode_word (py "import shared.") (py "from . import shared.") content in
  content.

Definition _bundle_shared_modules (root : SharedRoot)
    : result (gmap pystr file_content) :=
  let modules := ∅ in
  modules ←
    match lsp_engine root with
    | Some lsp_dir =>
        stage_files (py "lsp-engine") _rewrite_shared_imports
          (rglob (py ".py") lsp_dir) modules
    | None => Ok modules
    end;
  match code_analyzer root with
  | Some analyzer_dir =>
      modules ← stage_files (py "code_analyzer") _rewrite_shared_imports
                  (rglob (py ".py") analyzer_dir) modules;
      modules ← stage_files (py "code_analyzer") (fun content => content)
                  (rglob (py ".yml") analyzer_dir) modules;
      stage_files (py "code_analyzer") (fun content => content)
        (rglob (py ".xml") analyzer_dir) modules
  | None => Ok modules
  end.

Variable super_transform_skill : Path -> result SkillOutput.
Variable shared_dir : SharedRoot.

Definition transform_skill (source_dir : Path) : result SkillOutput :=
  output ← super_transform_skill source_dir;
  if _needs_shared_modules (scripts output) then
    shared_modules ← _bundle_shared_modules shared_dir;
    Ok {| skill_md := skill_md output;
          scripts := map_fold (fun path content scripts =>
                                 <[py "shared/" ++ path := content]> scripts)
                       (scripts output) shared_modules |}
  else Ok output.
End Bundle.
End OpenCode.

(** ** codex.py *)

Module Codex.
Definition cli_name : pystr := py "codex".

Definition default_install_path (env : Env) : Path :=
  cwd env // py ".codex" // py "skills".

Definition templates_dir_name : pystr := py "assets".
Definition docs_dir_name : pystr := py "references".

Definition codex_section (skill_name : pystr) : pystr :=
  py "

---

## Codex CLI Usage

This skill is compatible with OpenAI Codex CLI. To use:

```bash
# Enable skills in Codex
codex --enable skills

# The skill is automatically loaded from .codex/skills/" ++ skill_name ++
  py "/

# To run validation scripts manually:
cd .codex/skills/" ++ skill_name ++
  py "/scripts
python validate_*.py path/to/your/file
```

### Directory Structure

Codex CLI uses slightly different directory names:
- `assets/` - Code templates (called `templates/` in Claude Code)
- `references/` - Documentation (called `docs/` in Claude Code)
- `scripts/` - Validation scripts

See `scripts/README.md` for validation script usage.
".

(** The four [content.replace] calls, in the order of the source. *)
Definition rename_dirs (content : pystr) : pystr :=
  let content := str_replace (py "templates/") (py "assets/") content in
  let content := str_replace (py "docs/") (py "references/") content in
  let content := str_replace (py "`templates`") (py "`assets`") content in
  let content := str_replace (py "`docs`") (py "`references`") content in
  content.

Section Base.
Variable _common_skill_md_transforms : pystr -> pystr.

Definition transform_skill_md (content skill_name : pystr) : pystr :=
  let content := _common_skill_md_transforms content in
  let content := rename_dirs content in
  if negb (str_in (py "## Codex CLI Usage") content)
  then content ++ codex_section skill_name
  else content.
End Base.

Fixpoint needs_loop (values : list file_content) : bool :=
  match values with
  | [] => false
  | Str content :: rest =>
      if str_in (py "from shared") content || str_in (py "import shared") content
      then true
      else if str_in (py "lsp_client") content || str_in (py "code_analyzer") content
      then true
      else needs_loop rest
  | Bytes _ :: rest => needs_loop rest
  end.

Definition _needs_shared_modules (scripts : gmap pystr file_content) : bool :=
  needs_loop (map_to_list scripts).*2.

Definition _bundle_shared_modules (root : SharedRoot)
    : result (gmap pystr file_content) :=
  let modules := ∅ in
  modules ←
    match lsp_engine root with
    | Some lsp_dir =>
        stage_files (py "lsp-engine") (fun content => content)
          (rglob (py ".py") lsp_dir) modules
    | None => Ok modules
    end;
  match code_analyzer root with
  | Some analyzer_dir =>
      modules ← stage_files (py "code_analyzer") (fun content => content)
                  (rglob (py ".py") analyzer_dir) modules;
      modules ← stage_files (py "code_analyzer") (fun content => content)
                  (rglob (py ".yml") analyzer_dir) modules;
      stage_files (py "code_analyzer") (fun content => content)
        (rglob (py ".xml") analyzer_dir) modules
  | None => Ok modules
  end.

Section Skill.
Variable super_transform_skill : Path -> result SkillOutput.
Variable shared_dir : SharedRoot.

Definition transform_skill (source_dir : Path) : result SkillOutput :=
  output ← super_transform_skill source_dir;
  if _needs_shared_modules (scripts output) then
    shared_modules ← _bundle_shared_modules shared_dir;
    Ok {| skill_md := skill_md output;
          scripts := map_fold (fun path content scripts =>
                                 <[py "shared/" ++ path := content]> scripts)
                       (scripts output) shared_modules |}
  else Ok output.
End Skill.
End Codex.

(** ** gemini.py *)

Module Gemini.
Definition cli_name : pystr := py "gemini".

Definition default_install_path (env : Env) : Path :=
  home env // py ".gemini" // py "skills".

Definition gemini_section (skill_name : pystr) : pystr :=
  py "

---

## Gemini CLI Usage

This skill is compatible with Google Gemini CLI. To use:

```bash
# Skills are installed to ~/.gemini/skills/" ++ skill_name ++
  py "/
# Gemini CLI automatically discovers and loads them.

# Restart Gemini CLI to load new skills
gemini

# To run validation scripts manually:
cd ~/.gemini/skills/" ++ skill_name ++
  py "/scripts
python validate_*.py path/to/your/file
```

### Features

Gemini CLI with this skill provides:
- Automatic skill discovery from ~/.gemini/skills/
- 1M+ token context window (Gemini 2.5 Pro)
- Built-in Google Search grounding
- MCP extensibility

### Shared Skills

You can share skills between Gemini CLI and Claude Code by symlinking:

```bash
ln -s ~/.gemini/skills/" ++ skill_name ++
  py " ~/.claude/skills/" ++ skill_name ++
  py "
```

See `scripts/README.md` for validation script usage.
".

Section Base.
Variable _common_skill_md_transforms : pystr -> pystr.

Definition transform_skill_md (content skill_name : pystr) : pystr :=
  let content := _common_skill_md_transforms content in
  if negb (str_in (py "## Gemini CLI Usage") content)
  then content ++ gemini_section skill_name
  else content.
End Base.

Fixpoint needs_loop (values : list file_content) : bool :=
  match values with
  | [] => false
  | Str content :: rest =>
      if str_in (py "from shared") content || str_in (py "import shared") content
      then true
      else if str_in (py "lsp_client") content || str_in (py "code_analyzer") content
      then true
      else needs_loop rest
  | Bytes _ :: rest => needs_loop rest
  end.

Definition _needs_shared_modules (scripts : gmap pystr file_content) : bool :=
  needs_loop (map_to_list scripts).*2.

Definition _bundle_shared_modules (root : SharedRoot)
    : result (gmap pystr file_content) :=
  let modules := ∅ in
  modules ←
    match lsp_engine root with
    | Some lsp_dir =>
        stage_files (py "lsp-engine") (fun content => content)
          (rglob (py ".py") lsp_dir) modules
    | None => Ok modules
    end;
  match code_analyzer root with
  | Some analyzer_dir =>
      modules ← stage_files (py "code_analyzer") (fun content => content)
                  (rglob (py ".py") analyzer_dir) modules;
      modules ← stage_files (py "code_analyzer") (fun content => content)
                  (rglob (py ".yml") analyzer_dir) modules;
      stage_files (py "code_analyzer") (fun content => content)
        (rglob (py ".xml") analyzer_dir) modules
  | None => Ok modules
  end.

Section Skill.
Variable super_transform_skill : Path -> result SkillOutput.
Variable shared_dir : SharedRoot.

Definition transform_skill (source_dir : Path) : result SkillOutput :=
  output ← super_transform_skill source_dir;
  if _needs_shared_modules (scripts output) then
    shared_modules ← _bundle_shared_modules shared_dir;
    Ok {| skill_md := skill_md output;
          scripts := map_fold (fun path content scripts =>
                                 <[py "shared/" ++ path := content]> scripts)
                       (scripts output) shared_modules |}
  else Ok output.
End Skill.
End Gemini.

(** ** The registry of [__init__.py] and the adapters seen through it *)

Inductive adapter := OpenCodeAdapter | CodexAdapter | GeminiAdapter.

Definition ADAPTERS : list (pystr * adapter) :=
  [(py "opencode", OpenCodeAdapter); (py "codex", CodexAdapter);
   (py "gemini", GeminiAdapter)].

Definition usage_heading (a : adapter) : pystr :=
  match a with
  | OpenCodeAdapter => py "## OpenCode CLI Usage"
  | CodexAdapter => py "## Codex CLI Usage"
  | GeminiAdapter => py "## Gemini CLI Usage"
  end.

Section Dispatch.
Variable _common_skill_md_transforms : pystr -> pystr.
Variable unicode_word : char -> bool.
Variable super_transform_skill : Path -> result SkillOutput.
Variable shared_dir : SharedRoot.

Definition transform_skill_md (a : adapter) : pystr -> pystr -> pystr :=
  match a with
  | OpenCodeAdapter => OpenCode.transform_skill_md _common_skill_md_transforms
  | CodexAdapter => Codex.transform_skill_md _common_skill_md_transforms
  | GeminiAdapter => Gemini.transform_skill_md _common_skill_md_transforms
  end.

Definition _needs_shared_modules (a : adapter) : gmap pystr file_content -> bool :=
  match a with
  | OpenCodeAdapter => OpenCode._needs_shared_modules
  | CodexAdapter => Codex._needs_shared_modules
  | GeminiAdapter => Gemini._needs_shared_modules
  end.

Definition _bundle_shared_modules (a : adapter)
    : SharedRoot -> result (gmap pystr file_content) :=
  match a with
  | OpenCodeAdapter => OpenCode._bundle_shared_modules unicode_word
  | CodexAdapter => Codex._bundle_shared_modules
  | GeminiAdapter => Gemini._bundle_shared_modules
  end.

Definition transform_skill (a : adapter) : Path -> result SkillOutput :=
  match a with
  | OpenCodeAdapter =>
      OpenCode.transform_skill unicode_word super_transform_skill shared_dir
  | CodexAdapter => Codex.transform_skill super_transform_skill shared_dir
  | GeminiAdapter => Gemini.transform_skill super_transform_skill shared_dir
  end.
End Dispatch.

(** ** Vocabulary of the statements *)

(** The textual evidence [_needs_shared_modules] looks for. *)
Definition mentions_shared (s : pystr) : Prop :=
  occurs_in (py "from shared") s \/ occurs_in (py "import shared") s \/
  occurs_in (py "lsp_client") s \/ occurs_in (py "code_analyzer") s.

Definition mentions_sharedb (s : pystr) : bool :=
  str_in (py "from shared") s || str_in (py "import shared") s ||
  str_in (py "lsp_client") s || str_in (py "code_analyzer") s.

(** The shape the three [_bundle_shared_modules] share: they differ in the
    rewrite applied to the [.py] files only. *)
Definition bundle_with (rewrite : pystr -> pystr) (root : SharedRoot)
    : result (gmap pystr file_content) :=
  modules ←
    match lsp_engine root with
    | Some lsp_dir => stage_files (py "lsp-engine") rewrite (rglob (py ".py") lsp_dir) ∅
    | None => Ok ∅
    end;
  match code_analyzer root with
  | Some analyzer_dir =>
      modules ← stage_files (py "code_analyzer") rewrite
                  (rglob (py ".py") analyzer_dir) modules;
      modules ← stage_files (py "code_analyzer") (fun content => content)
                  (rglob (py ".yml") analyzer_dir) modules;
      stage_files (py "code_analyzer") (fun content => content)
        (rglob (py ".xml") analyzer_dir) modules
  | None => Ok modules
  end.

(** The same shared root with each missing subtree taken as an empty
    directory. *)
Definition as_empty (root : SharedRoot) : SharedRoot :=
  {| lsp_engine := Some (default [] (lsp_engine root));
     code_analyzer := Some (default [] (code_analyzer root)) |}.

(** The merge loop of [transform_skill]. *)
Definition merge_shared (scripts shared_modules : gmap pystr file_content)
    : gmap pystr file_content :=
  map_fold (fun path content scripts => <[py "shared/" ++ path := content]> scripts)
    scripts shared_modules.

(** A text ends with a word character or a dot: what stands before an
    occurrence that follows it is part of a longer name. *)
Definition ok_before (unicode_word : char -> bool) (c : char) : bool :=
  is_word unicode_word c || (c =? 46)%N.

Definition preceded (unicode_word : char -> bool) (a : pystr) : Prop :=
  exists c, last a = Some c /\ ok_before unicode_word c = true.

(** The usage section each adapter appends. *)
Definition usage_section (a : adapter) (skill_name : pystr) : pystr :=
  match a with
  | OpenCodeAdapter => OpenCode.opencode_section skill_name
  | CodexAdapter => Codex.codex_section skill_name
  | GeminiAdapter => Gemini.gemini_section skill_name
  end.

(** What the Codex renames do to the body; the other adapters have none. *)
Definition body_renames (a : adapter) : pystr -> pystr :=
  match a with
  | CodexAdapter => Codex.rename_dirs
  | _ => fun content => content
  end.

(** ** Sample inputs *)

Module Samples.
(** A project directory and three states of it. *)
Definition project : Path := [py "home"; py "dev"; py "project"].

Definition env_with (present : list Path) : Env :=
  {| cwd := project;
     home := [py "home"; py "dev"];
     path_exists := fun p => bool_decide (p ∈ present) |}.

Definition env_claude_only : Env := env_with [project // py ".claude" // py "skills"].
Definition env_both : Env :=
  env_with [project // py ".claude" // py "skills";
            project // py ".opencode" // py "skill"].
Definition env_bare : Env := env_with [].

(** The common transforms on a manifest that holds nothing for them to
    rewrite. *)
Definition leave_unchanged : pystr -> pystr := fun content => content.

(** No Unicode word characters beyond ASCII are needed by the samples. *)
Definition ascii_only : char -> bool := fun _ => false.

(** A script stored as bytes that spell [import shared]. *)
Definition binary_script : gmap pystr file_content :=
  {[ py "tool.bin" := Bytes [Byte.x69; Byte.x6d; Byte.x70; Byte.x6f; Byte.x72;
                             Byte.x74; Byte.x20; Byte.x73; Byte.x68; Byte.x61;
                             Byte.x72; Byte.x65; Byte.x64] ]}.

(** A skill directory, and shared roots in several states. *)
Definition skill_dir : Path := project ++ [py "skills"; py "sf-apex"].

Definition root_absent : SharedRoot := {| lsp_engine := None; code_analyzer := None |}.

Definition root_analyzer_only : SharedRoot :=
  {| lsp_engine := None;
     code_analyzer := Some [(py "analyzer.py", Text (py "import re"));
                            (py "rules/pmd.xml", Text (py "<ruleset/>"));
                            (py "notes.txt", Text (py "not bundled"))] |}.

Definition root_lsp_only : SharedRoot :=
  {| lsp_engine := Some [(py "client.py", Text (py "from shared.foo import bar"))];
     code_analyzer := None |}.

(** The base transformation of a skill with one script that imports the
    shared namespace. *)
Definition output_importing : SkillOutput :=
  {| skill_md := py "# sf-apex";
     scripts := {[ py "validate.py" := Str (py "import shared") ]} |}.

(** The same with a script already stored where a bundled file goes. *)
Definition output_with_stale_copy : SkillOutput :=
  {| skill_md := py "# sf-apex";
     scripts := {[ py "validate.py" := Str (py "import lsp_client");
                   py "shared/lsp-engine/client.py" := Str (py "stale copy") ]} |}.

(** A manifest that already holds the OpenCode usage heading twice. *)
Definition manifest_two_headings : pystr :=
  py "# sf-apex

## OpenCode CLI Usage

Place the skill in .opencode/skill/.

## OpenCode CLI Usage

See above.
".
End Samples.

(** ** The adapters through the registry, continued *)

(** [ADAPTERS[name]], as [dict.get]: the adapter registered under [name]. *)
Fixpoint registry_get (registry : list (pystr * adapter)) (name : pystr)
    : option adapter :=
  match registry with
  | [] => None
  | (key, a) :: rest => if bool_decide (key = name) then Some a else registry_get rest name
  end.

Definition cli_name (a : adapter) : pystr :=
  match a with
  | OpenCodeAdapter => OpenCode.cli_name
  | CodexAdapter => Codex.cli_name
  | GeminiAdapter => Gemini.cli_name
  end.

Definition default_install_path (a : adapter) : Env -> Path :=
  match a with
  | OpenCodeAdapter => OpenCode.default_install_path
  | CodexAdapter => Codex.default_install_path
  | GeminiAdapter => Gemini.default_install_path
  end.

(** The rewrite an adapter applies to the [.py] files it bundles. *)
Definition py_rewrite (unicode_word : char -> bool) (a : adapter) : pystr -> pystr :=
  match a with
  | OpenCodeAdapter => OpenCode._rewrite_shared_imports unicode_word
  | _ => fun content => content
  end.

(** Two listings of the same directory: the same entries, one per path, in
    any order; or the directory missing in both. *)
Definition same_listing (t t' : option Tree) : Prop :=
  match t, t' with
  | Some l, Some l' => l ≡ₚ l' /\ NoDup l.*1
  | None, None => True
  | _, _ => False
  end.

(** Two results of bundling agree on what was staged: the same keys, or the
    same exception. *)
Definition same_outcome (r r' : result (gmap pystr file_content)) : Prop :=
  match r, r' with
  | Ok m, Ok m' => dom m = dom m'
  | Raise e, Raise e' => e = e'
  | _, _ => False
  end.

(** ** Where a replacement can be cut

    [s.replace(old, new)] works on [x ++ mid ++ y] as on the three parts
    taken apart unless an occurrence of [old] starts in one part and ends
    in another.  The characters after which an occurrence of [old] can
    start before [mid] and run into it: for every split of [old] into two
    non-empty parts whose second part is compatible with [mid], the last
    character of the first part. *)
Fixpoint blockers_from (prev : char) (rest mid : pystr) : list char :=
  match rest with
  | [] => []
  | c :: rest' =>
      (if compat rest mid then [prev] else []) ++ blockers_from c rest' mid
  end.

Definition blockers (old mid : pystr) : list char :=
  match old with
  | [] => []
  | c :: rest => blockers_from c rest mid
  end.

(** The characters with which the text after [mid] would complete an
    occurrence of [old] that starts inside [mid]: for every non-empty tail
    of [mid] that is a prefix of [old], the character of [old] after it. *)
Fixpoint openers (mid old : pystr) : list char :=
  match mid with
  | [] => []
  | _ :: mid' =>
      (if startswith mid old then option_list (head (drop (length mid) old)) else [])
      ++ openers mid' old
  end.

(** Every non-empty tail of [h] that is compatible with [new] is a prefix of
    [old]: where the output of [s.replace(old, new)] starts with such a
    tail at a replaced occurrence, the input starts with it too. *)
Fixpoint starts_alike (h old new : pystr) : bool :=
  match h with
  | [] => true
  | _ :: h' => implb (compat h new) (startswith h old) && starts_alike h' old new
  end.

(** The input texts from which [s.replace(old, new)] makes an occurrence
    of [h] that starts inside the replacement: for every non-empty tail of
    [rep] that is a prefix of [h], [old] followed by the rest of [h]. *)
Fixpoint glues (rep old h : pystr) : list pystr :=
  match rep with
  | [] => []
  | _ :: rep' =>
      (if startswith rep h then [old ++ drop (length rep) h] else [])
      ++ glues rep' old h
  end.

(** The files the bundling loops visit: below [lsp-engine] the [.py]
    files, below [code_analyzer] the [.py], [.yml] and [.xml] files. *)
Definition collected (root : SharedRoot) (tree : Tree) (p : pystr) : Prop :=
  lsp_engine root = Some tree /\ endswith (py ".py") p = true \/
  code_analyzer root = Some tree /\
    (endswith (py ".py") p = true \/ endswith (py ".yml") p = true \/
     endswith (py ".xml") p = true).

(** Two results of bundling agree up to the exception: the same mapping, or
    an exception on both sides. *)
Definition same_mapping (r r' : result (gmap pystr file_content)) : Prop :=
  match r, r' with
  | Ok m, Ok m' => m = m'
  | Raise _, Raise _ => True
  | _, _ => False
  end.

Module MoreSamples.
(** A shared root whose analyzer holds a file that cannot be read. *)
Definition root_unreadable : SharedRoot :=
  {| lsp_engine := None;
     code_analyzer := Some [(py "broken.py",
                             Unreadable (PermissionError (py "broken.py")))] |}.

(** The base transformation of a skill whose only script names no shared
    module. *)
Definition output_plain : SkillOutput :=
  {| skill_md := py "# sf-apex";
     scripts := {[ py "validate.py" := Str (py "import re") ]} |}.

(** A shared root with both subtrees, and the same root listed in another
    order. *)
Definition root_full : SharedRoot :=
  {| lsp_engine := Some [(py "client.py", Text (py "from shared.foo import bar"));
                         (py "servers.yml", Text (py "apex: jorje"))];
     code_analyzer := Some [(py "analyzer.py", Text (py "import shared.rules"));
                            (py "rules/pmd.xml", Text (py "<ruleset/>"));
                            (py "config.yml", Text (py "from shared.x: 1"));
                            (py "notes.txt", Text (py "not bundled"))] |}.

Definition root_full_reordered : SharedRoot :=
  {| lsp_engine := Some [(py "servers.yml", Text (py "apex: jorje"));
                         (py "client.py", Text (py "from shared.foo import bar"))];
     code_analyzer := Some [(py "rules/pmd.xml", Text (py "<ruleset/>"));
                            (py "analyzer.py", Text (py "import shared.rules"));
                            (py "config.yml", Text (py "from shared.x: 1"));
                            (py "notes.txt", Text (py "not bundled"))] |}.
End MoreSamples.

(** ** Basic facts on [startswith], [in] and occurrences *)

Lemma startswith_spec p s : startswith p s = true <-> exists r, s = p ++ r.
Proof.
  revert s. induction p as [|a p IH]; intros s; simpl.
  - split; [intros _; by exists s | done].
  - destruct s as [|b s]; simpl.
    + split; [done | intros [r Hr]; discriminate].
    + rewrite andb_true_iff, N.eqb_eq, IH. split.
      * intros [-> [r ->]]. by exists r.
      * intros [r Hr]. injection Hr as -> ->. eauto.
Qed.

Lemma startswith_app p r : startswith p (p ++ r) = true.
Proof. apply startswith_spec. by exists r. Qed.

Lemma startswith_nil_r p : startswith p [] = true -> p = [].
Proof. by destruct p. Qed.

Lemma str_in_spec needle hay : str_in needle hay = true <-> occurs_in needle hay.
Proof.
  unfold occurs_in. induction hay as [|c t IH]; simpl.
  - rewrite orb_false_r, startswith_spec. split.
    + intros [r Hr]. by exists [], r.
    + intros [a [b Hab]]. destruct a; [by exists b|discriminate].
  - rewrite orb_true_iff, startswith_spec, IH. split.
    + intros [[r Hr]|[a [b Hab]]].
      * by exists [], r.
      * exists (c :: a), b. by rewrite Hab.
    + intros [[|x a] [b Hab]].
      * left. by exists b.
      * right. injection Hab as -> ->. by exists a, b.
Qed.

Lemma str_in_false needle hay : str_in needle hay = false <-> ~ occurs_in needle hay.
Proof. rewrite <- str_in_spec. by destruct (str_in needle hay). Qed.

Lemma occurs_in_app_l needle x y : occurs_in needle x -> occurs_in needle (x ++ y).
Proof.
  intros [a [b ->]]. exists a, (b ++ y). by rewrite <- !app_assoc.
Qed.

Lemma occurs_in_app_r needle x y : occurs_in needle y -> occurs_in needle (x ++ y).
Proof.
  intros [a [b ->]]. exists (x ++ a), b. by rewrite <- !app_assoc.
Qed.

Lemma occurs_in_cons needle c t : occurs_in needle t -> occurs_in needle (c :: t).
Proof. apply (occurs_in_app_r needle [c] t). Qed.

Lemma occurs_in_nonempty needle hay : needle <> [] -> occurs_in needle hay -> hay <> [].
Proof. intros Hn [a [b ->]]. destruct a, needle; done. Qed.

Lemma occurrences_pos needle hay : 0 < occurrences needle hay <-> occurs_in needle hay.
Proof.
  rewrite <- str_in_spec. induction hay as [|c t IH]; simpl.
  - destruct (startswith needle []); simpl; [split; [done|lia] | split; [lia|done]].
  - destruct (startswith needle (c :: t)); simpl.
    + split; [done|lia].
    + rewrite <- IH. done.
Qed.

Lemma occurrences_drop_le needle k hay :
  occurrences needle (drop k hay) <= occurrences needle hay.
Proof.
  revert k. induction hay as [|c t IH]; intros [|k]; simpl; try lia.
  specialize (IH k). lia.
Qed.

(** ** Overlaps between a needle and the texts of a substitution *)

Lemma compat_sym u v : compat u v = compat v u.
Proof. unfold compat. apply orb_comm. Qed.

Lemma compat_common u v x y : u ++ x = v ++ y -> compat u v = true.
Proof.
  unfold compat. revert v. induction u as [|a u IH]; intros [|b v] H; simpl in *; try done.
  injection H as -> H. rewrite N.eqb_refl. simpl. by apply IH.
Qed.

Lemma startswith_app_compat u v x : startswith u (v ++ x) = true -> compat u v = true.
Proof.
  intros [r Hr]%startswith_spec. symmetry in Hr. by apply compat_common in Hr.
Qed.

Lemma startswith_both_compat u v s :
  startswith u s = true -> startswith v s = true -> compat u v = true.
Proof.
  intros [r ->]%startswith_spec [r' Hr]%startswith_spec. by apply compat_common in Hr.
Qed.

Lemma clash_tails_false x y :
  clash_tails x y = false ->
  forall a b, x = a ++ b -> b <> [] -> compat b y = false.
Proof.
  intros H a. revert x H. induction a as [|c a IH]; intros x H b -> Hb; simpl in *.
  - destruct b as [|d b]; [done|]. simpl in H. by apply orb_false_elim in H as [? _].
  - apply orb_false_elim in H as [_ H]. by apply (IH _ H).
Qed.

Lemma occurrences_app_no_clash rep h x :
  clash_tails rep h = false -> occurrences h (rep ++ x) = occurrences h x.
Proof.
  induction rep as [|c r IH]; [done|]. intros H.
  simpl in H. apply orb_false_elim in H as [Hc Hr].
  change ((c :: r) ++ x) with (c :: (r ++ x)).
  change (occurrences h (c :: (r ++ x)))
    with ((if startswith h ((c :: r) ++ x) then 1 else 0) + occurrences h (r ++ x)).
  destruct (startswith h ((c :: r) ++ x)) eqn:E.
  - apply startswith_app_compat in E. rewrite compat_sym in E. congruence.
  - by rewrite IH.
Qed.

Lemma compat_app_r_false v p r : compat v p = false -> compat v (p ++ r) = false.
Proof.
  intros H. apply not_true_is_false. intros Hc. unfold compat in Hc.
  apply orb_true_iff in Hc as [Hc|Hc].
  - apply startswith_app_compat in Hc. congruence.
  - apply startswith_spec in Hc as [z Hz]. rewrite <- app_assoc in Hz.
    assert (Hp : startswith p v = true) by (rewrite Hz; apply startswith_app).
    unfold compat in H. rewrite Hp in H. by rewrite orb_true_r in H.
Qed.

Lemma clash_tails_app_r x p r : clash_tails x p = false -> clash_tails x (p ++ r) = false.
Proof.
  induction x as [|c x IH]; [done|]. simpl.
  intros [H1 H2]%orb_false_elim. by rewrite compat_app_r_false, IH.
Qed.

Lemma startswith_app_l h t y : startswith h t = true -> startswith h (t ++ y) = true.
Proof.
  intros [r ->]%startswith_spec. rewrite <- app_assoc. apply startswith_app.
Qed.

Lemma startswith_antisym u v : startswith u v = true -> startswith v u = true -> u = v.
Proof.
  revert v. induction u as [|a u IH]; intros [|b v]; simpl; try done.
  intros [->%N.eqb_eq H1]%andb_true_iff [_ H2]%andb_true_iff. f_equal. by apply IH.
Qed.

(** ** Occurrences in a concatenation

    The count is additive when no occurrence can straddle the seam; the two
    lemmas put the condition on the text left, or right, of the seam. *)

Lemma occurrences_nil h : h <> [] -> occurrences h [] = 0.
Proof. by destruct h. Qed.

Lemma occurrences_app_l h x y :
  h <> [] -> runs_over x h = false ->
  occurrences h (x ++ y) = occurrences h x + occurrences h y.
Proof.
  intros Hh. induction x as [|c x IH]; [by rewrite occurrences_nil|].
  change (runs_over (c :: x) h)
    with (startswith (c :: x) h && negb (startswith h (c :: x)) || runs_over x h).
  intros [Hc Hx]%orb_false_elim.
  change (occurrences h ((c :: x) ++ y))
    with ((if startswith h ((c :: x) ++ y) then 1 else 0) + occurrences h (x ++ y)).
  change (occurrences h (c :: x))
    with ((if startswith h (c :: x) then 1 else 0) + occurrences h x).
  rewrite (IH Hx).
  destruct (startswith h (c :: x)) eqn:E.
  - rewrite (startswith_app_l _ _ y E). lia.
  - destruct (startswith h ((c :: x) ++ y)) eqn:E'; [|lia].
    apply startswith_app_compat in E'. unfold compat in E'.
    rewrite E, orb_false_l in E'. by rewrite E' in Hc.
Qed.

Lemma occurrences_app_r h x p r :
  h <> [] -> clash_tails (tail h) p = false ->
  occurrences h (x ++ p ++ r) = occurrences h x + occurrences h (p ++ r).
Proof.
  intros Hh Hc%(clash_tails_app_r _ _ r).
  induction x as [|c x IH].
  - by rewrite occurrences_nil.
  - change (occurrences h ((c :: x) ++ p ++ r))
      with ((if startswith h ((c :: x) ++ p ++ r) then 1 else 0)
            + occurrences h (x ++ p ++ r)).
    change (occurrences h (c :: x))
      with ((if startswith h (c :: x) then 1 else 0) + occurrences h x).
    rewrite IH.
    destruct (startswith h (c :: x)) eqn:E.
    + rewrite (startswith_app_l _ _ (p ++ r) E). lia.
    + destruct (startswith h ((c :: x) ++ p ++ r)) eqn:E'; [|lia].
      pose proof (startswith_app_compat _ _ _ E') as Hcompat.
      unfold compat in Hcompat. rewrite E, orb_false_l in Hcompat.
      apply startswith_spec in Hcompat as [v Hv].
      destruct v as [|v0 v'].
      { rewrite app_nil_r in Hv. subst h.
        assert (startswith (c :: x) (c :: x) = true)
          by (apply startswith_spec; exists []; by rewrite app_nil_r).
        congruence. }
      apply startswith_spec in E' as [z Hz]. rewrite Hv, <- app_assoc in Hz.
      apply app_inv_head in Hz.
      assert (Hcv : compat (v0 :: v') (p ++ r) = true).
      { unfold compat. by rewrite Hz, startswith_app. }
      rewrite (clash_tails_false _ _ Hc x (v0 :: v')) in Hcv; [done| |done].
      by rewrite Hv.
Qed.

(** ** The scanner: what a substitution can create and what it keeps *)

Section Scan.
Variable m : matcher.

Lemma scan_sub_skip s k : scan_sub m k s = scan_sub m 0 (drop k s).
Proof.
  revert k. induction s as [|c t IH]; intros [|k]; try done.
  simpl. apply IH.
Qed.

Lemma scan_sub_cons c t :
  scan_sub m 0 (c :: t) =
  match m (c :: t) with
  | Some (rep, k) => rep ++ scan_sub m 0 (drop k t)
  | None => c :: scan_sub m 0 t
  end.
Proof.
  simpl. destruct (m (c :: t)) as [[rep k]|]; [|done]. by rewrite scan_sub_skip.
Qed.

Section NoNew.
(** [h] is the needle; no replacement text overlaps it. *)
Variable h : pystr.
Hypothesis Hrep : forall s rep k,
  m s = Some (rep, k) -> clash_tails h rep = false /\ clash_tails rep h = false.

(** Where the output starts with a tail of the needle, so did the input. *)
Lemma scan_startswith_inv a u s :
  h = a ++ u -> startswith u (scan_sub m 0 s) = true -> startswith u s = true.
Proof.
  revert a s. induction u as [|c u IH]; intros a s Hh; [done|].
  destruct s as [|d t]; [done|]. rewrite scan_sub_cons.
  destruct (m (d :: t)) as [[rep k]|] eqn:Hm.
  - intros E%startswith_app_compat.
    apply Hrep in Hm as [Hm _].
    by rewrite (clash_tails_false _ _ Hm a (c :: u) Hh) in E.
  - simpl. intros [Hcd E]%andb_true_iff. rewrite Hcd. simpl.
    apply (IH (a ++ [c])); [by rewrite <- app_assoc | done].
Qed.

Lemma scan_occurrences_le s k :
  occurrences h (scan_sub m k s) <= occurrences h (drop k s).
Proof.
  revert k. induction s as [|c t IH]; intros k; [by destruct k|].
  destruct k as [|k]; [|apply IH].
  change (drop 0 (c :: t)) with (c :: t). simpl scan_sub.
  destruct (m (c :: t)) as [[rep k]|] eqn:Hm.
  - destruct (Hrep _ _ _ Hm) as [_ Hc].
    rewrite (occurrences_app_no_clash _ _ _ Hc).
    etrans; [apply IH|]. etrans; [apply occurrences_drop_le|]. simpl. lia.
  - specialize (IH 0). change (drop 0 t) with t in IH.
    assert (Hs := scan_startswith_inv [] h (c :: t) eq_refl).
    rewrite scan_sub_cons, Hm in Hs. simpl.
    destruct (startswith h (c :: scan_sub m 0 t)); [rewrite Hs by done|]; lia.
Qed.
End NoNew.
End Scan.

Section Keep.
(** Every match of [m] is the literal [pat] followed by a part [W] that the
    replacement keeps at its end; no match can start inside an occurrence
    of the needle [h], and [h] cannot start inside [pat]. *)
Variables (m : matcher) (pat h : pystr).
Hypothesis Hdec : forall s rep k, m s = Some (rep, k) ->
  exists r0 W rest, s = pat ++ W ++ rest /\ rep = r0 ++ W /\
                    S k = length pat + length W.
Hypothesis Hclash : clash_tails h pat = false.
Hypothesis Hclash' : clash_tails pat h = false.

Lemma scan_startswith_keep a u s :
  h = a ++ u -> startswith u s = true -> startswith u (scan_sub m 0 s) = true.
Proof using Hdec Hclash.
  revert a s. induction u as [|c u IH]; intros a s Hh; [done|].
  destruct s as [|d t]; [done|]. intros E. rewrite scan_sub_cons.
  destruct (m (d :: t)) as [[rep k]|] eqn:Hm.
  - apply Hdec in Hm as (r0 & W & rest & Hs & _).
    assert (Hp : startswith pat (d :: t) = true) by (rewrite Hs; apply startswith_app).
    pose proof (startswith_both_compat _ _ _ E Hp) as Hc.
    by rewrite (clash_tails_false _ _ Hclash a (c :: u) Hh) in Hc.
  - simpl in *. apply andb_true_iff in E as [Hcd E]. rewrite Hcd. simpl.
    apply (IH (a ++ [c])); [by rewrite <- app_assoc | done].
Qed.

(** An occurrence of the needle survives the substitution. *)
Lemma scan_keeps s k : occurs_in h (drop k s) -> occurs_in h (scan_sub m k s).
Proof using Hdec Hclash Hclash'.
  revert k. induction s as [|c t IH]; intros k; [by destruct k|].
  destruct k as [|k]; [|apply IH].
  change (drop 0 (c :: t)) with (c :: t). intros Hocc. simpl scan_sub.
  destruct (m (c :: t)) as [[rep k]|] eqn:Hm.
  - apply Hdec in Hm as (r0 & W & rest & Hs & -> & Hk).
    assert (Hrest : drop k t = rest).
    { change (drop k t) with (drop (S k) (c :: t)).
      by rewrite Hs, Hk, app_assoc, <- length_app, drop_app_length. }
    rewrite scan_sub_skip, Hrest.
    assert (IHrest : occurs_in h rest -> occurs_in h (scan_sub m 0 rest)).
    { intros H. rewrite <- Hrest, <- scan_sub_skip. apply IH. by rewrite Hrest. }
    destruct Hocc as (a & b & Hab). rewrite Hs in Hab.
    assert (exists u, W ++ rest = u ++ h ++ b) as [u Hu].
    { apply app_eq_inv in Hab as [(u & Ha & Hb)|(u & _ & Hb)]; [|by exists u].
      destruct u as [|x u]; [by exists []|].
      symmetry in Hb. apply compat_common in Hb.
      by rewrite (clash_tails_false _ _ Hclash' a (x :: u) Ha) in Hb. }
    apply app_eq_inv in Hu as [(v & -> & Hv)|(v & _ & ->)].
    + apply app_eq_inv in Hv as [(x & Hx & ->)|(x & -> & _)].
      * pose proof (scan_startswith_keep v x (x ++ b) Hx (startswith_app _ _)) as Hk'.
        apply startswith_spec in Hk' as [y ->].
        exists (r0 ++ u), y. rewrite Hx. by rewrite <- !app_assoc.
      * exists (r0 ++ u), (x ++ scan_sub m 0 rest). by rewrite <- !app_assoc.
    + apply occurs_in_app_r, IHrest. by exists v, b.
  - apply str_in_spec in Hocc. simpl in Hocc. apply orb_true_iff in Hocc as [E|E].
    + pose proof (scan_startswith_keep [] h (c :: t) eq_refl E) as Hk.
      rewrite scan_sub_cons, Hm in Hk. apply str_in_spec. simpl str_in.
      by rewrite Hk.
    + apply occurs_in_cons, (IH 0), str_in_spec, E.
Qed.
End Keep.

Section Replace.
Variables old new : pystr.
Hypothesis Hold : old <> [].

Lemma replace_matcher_some s rep k :
  replace_matcher old new s = Some (rep, k) ->
  rep = new /\ k = pred (length old) /\ startswith old s = true.
Proof.
  unfold replace_matcher. destruct (startswith old s); [|done].
  intros [= <- <-]. done.
Qed.

Lemma str_replace_scan s : str_replace old new s = scan_sub (replace_matcher old new) 0 s.
Proof using Hold. unfold str_replace. by destruct old. Qed.

(** No occurrence of [old] is left when [old] and [new] do not overlap. *)
Lemma replace_none_remain s :
  clash_tails old new = false -> clash_tails new old = false ->
  ~ occurs_in old (str_replace old new s).
Proof using Hold.
  intros H1 H2. rewrite str_replace_scan, <- occurrences_pos.
  assert (Hrep : forall s rep k, replace_matcher old new s = Some (rep, k) ->
            clash_tails old rep = false /\ clash_tails rep old = false).
  { intros ??? (-> & _ & _)%replace_matcher_some. done. }
  enough (forall k, occurrences old (scan_sub (replace_matcher old new) k s) = 0) as ->
    by lia.
  induction s as [|c t IH]; intros k; [destruct k; simpl; by destruct old|].
  destruct k as [|k]; [|apply IH]. simpl scan_sub.
  destruct (replace_matcher old new (c :: t)) as [[rep k]|] eqn:Hm.
  - destruct (Hrep _ _ _ Hm) as [_ Hc].
    by rewrite (occurrences_app_no_clash _ _ _ Hc).
  - assert (Hs := scan_startswith_inv _ old Hrep [] old (c :: t) eq_refl).
    rewrite scan_sub_cons, Hm in Hs. simpl. rewrite IH.
    destruct (startswith old (c :: scan_sub _ 0 t)); [|done].
    unfold replace_matcher in Hm. by rewrite Hs in Hm.
Qed.

(** A needle that overlaps neither [new] nor its tails is not created. *)
Lemma replace_no_new h s :
  clash_tails h new = false -> clash_tails new h = false ->
  occurrences h (str_replace old new s) <= occurrences h s.
Proof using Hold.
  intros H1 H2. rewrite str_replace_scan.
  apply (scan_occurrences_le _ h) with (k := 0).
  intros ??? (-> & _ & _)%replace_matcher_some. done.
Qed.

Lemma replace_absent h s :
  clash_tails h new = false -> clash_tails new h = false ->
  ~ occurs_in h s -> ~ occurs_in h (str_replace old new s).
Proof using Hold.
  intros H1 H2. rewrite <- !occurrences_pos.
  pose proof (replace_no_new h s H1 H2). lia.
Qed.

(** A needle that overlaps neither [old] nor its tails is kept. *)
Lemma replace_keeps h s :
  clash_tails h old = false -> clash_tails old h = false ->
  occurs_in h s -> occurs_in h (str_replace old new s).
Proof using Hold.
  intros H1 H2. rewrite str_replace_scan.
  apply (scan_keeps _ old h) with (k := 0); [|done..].
  intros s' rep k (-> & -> & [rest ->]%startswith_spec)%replace_matcher_some.
  exists new, [], rest. rewrite app_nil_r. split; [done|]. split; [done|].
  simpl. destruct old; [done|]. simpl. lia.
Qed.
End Replace.

(** ** Detection of shared-module references *)

Lemma mentions_sharedb_spec s : mentions_sharedb s = true <-> mentions_shared s.
Proof.
  unfold mentions_sharedb, mentions_shared.
  rewrite !orb_true_iff, !str_in_spec. tauto.
Qed.

Lemma needs_loop_opencode values :
  OpenCode.needs_loop values = existsb (fun v => match v with
                                                 | Str s => mentions_sharedb s
                                                 | Bytes _ => false
                                                 end) values.
Proof.
  induction values as [|[s|b] rest IH]; [done| |done].
  cbn [OpenCode.needs_loop existsb]. rewrite <- IH. unfold mentions_sharedb.
  by destruct (str_in _ s), (str_in _ s), (str_in _ s), (str_in _ s).
Qed.

Lemma needs_loop_codex values : Codex.needs_loop values = OpenCode.needs_loop values.
Proof. induction values as [|[s|b] rest IH]; [done| |done]. cbn. by rewrite IH. Qed.

Lemma needs_loop_gemini values : Gemini.needs_loop values = OpenCode.needs_loop values.
Proof. induction values as [|[s|b] rest IH]; [done| |done]. cbn. by rewrite IH. Qed.

Lemma needs_shared_modules_eq (a : adapter) (scripts : gmap pystr file_content) :
  _needs_shared_modules a scripts = OpenCode.needs_loop (map_to_list scripts).*2.
Proof.
  destruct a; [done| |]; cbn;
    [unfold Codex._needs_shared_modules | unfold Gemini._needs_shared_modules];
    [apply needs_loop_codex | apply needs_loop_gemini].
Qed.

Lemma needs_shared_modules_spec (a : adapter) (scripts : gmap pystr file_content) :
  _needs_shared_modules a scripts = true <->
  exists k s, scripts !! k = Some (Str s) /\ mentions_shared s.
Proof.
  rewrite needs_shared_modules_eq, needs_loop_opencode, existsb_exists. split.
  - intros [v [Hin Hv]]. destruct v as [s|b]; [|done].
    apply list_elem_of_In, list_elem_of_fmap in Hin as [[k v] [Hv' Hin]].
    simpl in Hv'. subst v. apply elem_of_map_to_list in Hin.
    exists k, s. by rewrite <- mentions_sharedb_spec.
  - intros (k & s & Hk & Hs). exists (Str s). split.
    + apply list_elem_of_In, list_elem_of_fmap. exists (k, Str s).
      split; [done|]. by apply elem_of_map_to_list.
    + by apply mentions_sharedb_spec.
Qed.

(** ** Listing and staging the shared modules *)

Lemma elem_of_rglob ext (tree : Tree) e :
  e ∈ rglob ext tree <-> e ∈ tree /\ endswith ext e.1 = true.
Proof. unfold rglob. by rewrite !list_elem_of_In, filter_In. Qed.

Lemma NoDup_rglob ext (tree : Tree) : NoDup tree.*1 -> NoDup (rglob ext tree).*1.
Proof.
  induction tree as [|[p d] rest IH]; [done|].
  cbn. rewrite NoDup_cons. intros [Hp Hrest].
  destruct (endswith ext p); [|by apply IH].
  cbn. apply NoDup_cons. split; [|by apply IH].
  intros ([q d'] & -> & [Hin _]%elem_of_rglob)%list_elem_of_fmap.
  apply Hp, list_elem_of_fmap. by exists (q, d').
Qed.

Lemma rel_path_inj dir p q : rel_path dir p = rel_path dir q -> p = q.
Proof. unfold rel_path. by intros ?%app_inv_head%app_inv_head. Qed.

Section Stage.
Variables (dir : pystr) (rw : pystr -> pystr).

(** Whatever is in the mapping after a loop was there before or was
    staged from a readable file of the listing. *)
Lemma stage_files_inv files acc m :
  stage_files dir rw files acc = Ok m ->
  forall k v, m !! k = Some v ->
    acc !! k = Some v \/
    exists p c, (p, Text c) ∈ files /\ k = rel_path dir p /\ v = Str (rw c).
Proof.
  revert acc. induction files as [|[p d] rest IH]; intros acc H k v Hk; simpl in H.
  - injection H as <-. by left.
  - destruct d as [c|]; simpl in H; [|done].
    apply (IH _ H) in Hk as [Hk | (p' & c' & Hin & -> & ->)].
    + destruct (decide (rel_path dir p = k)) as [<-|Hne].
      * rewrite lookup_insert_eq in Hk. injection Hk as <-.
        right. exists p, c. split; [apply elem_of_cons; by left | done].
      * rewrite lookup_insert_ne in Hk by done. by left.
    + right. exists p', c'. split; [apply elem_of_cons; by right | done].
Qed.

(** A key that no file of the listing maps to is left as it was. *)
Lemma stage_files_other files acc m k :
  stage_files dir rw files acc = Ok m ->
  (forall p d, (p, d) ∈ files -> rel_path dir p <> k) ->
  m !! k = acc !! k.
Proof.
  revert acc. induction files as [|[p d] rest IH]; intros acc H Hk; simpl in H.
  - by injection H as <-.
  - destruct d as [c|]; simpl in H; [|done].
    rewrite (IH _ H).
    + apply lookup_insert_ne, (Hk p (Text c)), elem_of_cons. by left.
    + intros q d' Hin. apply (Hk q d'), elem_of_cons. by right.
Qed.

(** With one entry per path, a staged file is found under its key. *)
Lemma stage_files_lookup files acc m p c :
  NoDup files.*1 -> (p, Text c) ∈ files ->
  stage_files dir rw files acc = Ok m ->
  m !! rel_path dir p = Some (Str (rw c)).
Proof.
  revert acc. induction files as [|[q d] rest IH]; intros acc Hnd Hin H.
  - by apply elem_of_nil in Hin.
  - cbn in Hnd. apply NoDup_cons in Hnd as [Hq Hnd].
    destruct d as [c'|]; simpl in H; [|done].
    apply elem_of_cons in Hin as [[= <- <-]|Hin]; [|by apply (IH _ Hnd Hin H)].
    rewrite (stage_files_other _ _ _ _ H); [apply lookup_insert_eq|].
    intros p' d' Hin' ->%rel_path_inj. apply Hq, list_elem_of_fmap.
    by exists (p, d').
Qed.

Lemma stage_files_raise files acc e :
  stage_files dir rw files acc = Raise e ->
  exists p why, (p, Unreadable why) ∈ files /\ e = ReadError why.
Proof.
  revert acc. induction files as [|[p d] rest IH]; intros acc H; simpl in H; [done|].
  destruct d as [c|why]; simpl in H.
  - destruct (IH _ H) as (q & why & Hq & ->). exists q, why. split; [|done].
    apply elem_of_cons. by right.
  - injection H as <-. exists p, why. split; [|done]. apply elem_of_cons. by left.
Qed.
End Stage.

(** The three adapters bundle in the same way, up to the rewrite. *)
Lemma bundle_shared_modules_eq unicode_word (a : adapter) root :
  _bundle_shared_modules unicode_word a root =
  bundle_with match a with
              | OpenCodeAdapter => OpenCode._rewrite_shared_imports unicode_word
              | _ => fun content => content
              end root.
Proof. by destruct a. Qed.

(** ** The merge of the bundled files into the scripts *)

Lemma merge_shared_lookup (base mods : gmap pystr file_content) :
  (forall p c, mods !! p = Some c -> merge_shared base mods !! (py "shared/" ++ p) = Some c) /\
  (forall k, (forall p, k = py "shared/" ++ p -> mods !! p = None) ->
             merge_shared base mods !! k = base !! k).
Proof.
  unfold merge_shared.
  apply (map_fold_weak_ind (fun r (m : gmap pystr file_content) =>
    (forall p c, m !! p = Some c -> r !! (py "shared/" ++ p) = Some c) /\
    (forall k, (forall p, k = py "shared/" ++ p -> m !! p = None) -> r !! k = base !! k))).
  - split; [intros p c; by rewrite lookup_empty | done].
  - intros i x m r Hi [IH1 IH2]. split.
    + intros p c. destruct (decide (i = p)) as [->|Hne].
      * rewrite !lookup_insert_eq. done.
      * rewrite lookup_insert_ne by done. intros Hp.
        rewrite lookup_insert_ne; [by apply IH1|]. by intros ?%app_inv_head.
    + intros k Hk. rewrite lookup_insert_ne.
      * apply IH2. intros p Hp. specialize (Hk p Hp).
        destruct (decide (i = p)) as [->|Hne]; [by rewrite lookup_insert_eq in Hk|].
        by rewrite lookup_insert_ne in Hk.
      * intros <-. specialize (Hk i eq_refl). by rewrite lookup_insert_eq in Hk.
Qed.

Lemma transform_skill_unfold unicode_word super_transform_skill shared_dir
    (a : adapter) source_dir :
  transform_skill unicode_word super_transform_skill shared_dir a source_dir =
  (output ← super_transform_skill source_dir;
   if _needs_shared_modules a (scripts output) then
     shared_modules ← _bundle_shared_modules unicode_word a shared_dir;
     Ok {| skill_md := skill_md output;
           scripts := merge_shared (scripts output) shared_modules |}
   else Ok output).
Proof. by destruct a. Qed.

(** ** Bundling, subtree by subtree *)

Lemma bundle_with_as_empty rw root : bundle_with rw root = bundle_with rw (as_empty root).
Proof. by destruct root as [[l|] [t|]]. Qed.

Lemma bundle_with_keys rw root m k :
  bundle_with rw root = Ok m -> is_Some (m !! k) ->
  (exists tree p d, lsp_engine root = Some tree /\ (p, d) ∈ tree /\
                    k = rel_path (py "lsp-engine") p) \/
  (exists tree p d, code_analyzer root = Some tree /\ (p, d) ∈ tree /\
                    k = rel_path (py "code_analyzer") p).
Proof.
  unfold bundle_with. intros H [v Hv].
  assert (Hlsp : forall m1,
    match lsp_engine root with
    | Some lsp_dir => stage_files (py "lsp-engine") rw (rglob (py ".py") lsp_dir) ∅
    | None => Ok ∅
    end = Ok m1 -> forall v, m1 !! k = Some v ->
    exists tree p d, lsp_engine root = Some tree /\ (p, d) ∈ tree /\
                     k = rel_path (py "lsp-engine") p).
  { intros m1 H1 v1 Hv1. destruct (lsp_engine root) as [l|].
    - apply (stage_files_inv _ _ _ _ _ H1) in Hv1
        as [Hv1 | (p & c & [Hin _]%elem_of_rglob & -> & _)]; [done|].
      by exists l, p, (Text c).
    - injection H1 as <-. done. }
  destruct (match lsp_engine root with Some _ => _ | None => _ end) as [m1|]; [|done].
  specialize (Hlsp m1 eq_refl). simpl in H.
  destruct (code_analyzer root) as [t|]; [|injection H as <-; left; eauto].
  destruct (stage_files _ _ (rglob (py ".py") t) m1) as [m2|] eqn:E2; [|done].
  simpl in H.
  destruct (stage_files _ _ (rglob (py ".yml") t) m2) as [m3|] eqn:E3; [|done].
  simpl in H.
  apply (stage_files_inv _ _ _ _ _ H) in Hv
    as [Hv | (p & c & [Hin _]%elem_of_rglob & -> & _)];
    [|right; by exists t, p, (Text c)].
  apply (stage_files_inv _ _ _ _ _ E3) in Hv
    as [Hv | (p & c & [Hin _]%elem_of_rglob & -> & _)];
    [|right; by exists t, p, (Text c)].
  apply (stage_files_inv _ _ _ _ _ E2) in Hv
    as [Hv | (p & c & [Hin _]%elem_of_rglob & -> & _)];
    [|right; by exists t, p, (Text c)].
  left. eauto.
Qed.

Lemma bundle_with_raise rw root e :
  bundle_with rw root = Raise e ->
  exists tree p why, collected root tree p /\ (p, Unreadable why) ∈ tree /\
                     e = ReadError why.
Proof.
  unfold bundle_with, collected. intros H.
  destruct (lsp_engine root) as [l|].
  - destruct (stage_files _ _ (rglob (py ".py") l) ∅) as [m1|e1] eqn:E1.
    + simpl in H. destruct (code_analyzer root) as [t|]; [|done].
      destruct (stage_files _ _ (rglob (py ".py") t) m1) as [m2|] eqn:E2; simpl in H;
        [|injection H as <-;
          apply stage_files_raise in E2 as (p & why & [Hp Hx]%elem_of_rglob & ->);
          exists t, p, why; eauto 6].
      destruct (stage_files _ _ (rglob (py ".yml") t) m2) as [m3|] eqn:E3; simpl in H;
        [|injection H as <-;
          apply stage_files_raise in E3 as (p & why & [Hp Hx]%elem_of_rglob & ->);
          exists t, p, why; eauto 7].
      apply stage_files_raise in H as (p & why & [Hp Hx]%elem_of_rglob & ->).
      exists t, p, why; eauto 7.
    + simpl in H. injection H as <-.
      apply stage_files_raise in E1 as (p & why & [Hp Hx]%elem_of_rglob & ->).
      exists l, p, why; eauto 6.
  - simpl in H. destruct (code_analyzer root) as [t|]; [|done].
    destruct (stage_files _ _ (rglob (py ".py") t) ∅) as [m2|] eqn:E2; simpl in H;
      [|injection H as <-;
        apply stage_files_raise in E2 as (p & why & [Hp Hx]%elem_of_rglob & ->);
        exists t, p, why; eauto 6].
    destruct (stage_files _ _ (rglob (py ".yml") t) m2) as [m3|] eqn:E3; simpl in H;
      [|injection H as <-;
        apply stage_files_raise in E3 as (p & why & [Hp Hx]%elem_of_rglob & ->);
        exists t, p, why; eauto 7].
    apply stage_files_raise in H as (p & why & [Hp Hx]%elem_of_rglob & ->).
    exists t, p, why; eauto 7.
Qed.

Lemma transform_skill_ok unicode_word super_transform_skill shared_dir
    (a : adapter) source_dir output shared_modules :
  super_transform_skill source_dir = Ok output ->
  _needs_shared_modules a (scripts output) = true ->
  _bundle_shared_modules unicode_word a shared_dir = Ok shared_modules ->
  transform_skill unicode_word super_transform_skill shared_dir a source_dir
    = Ok {| skill_md := skill_md output;
            scripts := merge_shared (scripts output) shared_modules |}.
Proof.
  intros Hsuper Hneeds Hbundle.
  rewrite transform_skill_unfold, Hsuper. simpl. by rewrite Hneeds, Hbundle.
Qed.

(** ** The Codex directory renames *)

Ltac py_nonempty := let H := fresh in intros H; vm_compute in H; discriminate H.

Lemma rename_dirs_no_templates s : ~ occurs_in (py "templates/") (Codex.rename_dirs s).
Proof.
  unfold Codex.rename_dirs. cbv zeta.
  do 3 (apply replace_absent; [py_nonempty | by vm_compute | by vm_compute |]).
  apply replace_none_remain; [py_nonempty | by vm_compute | by vm_compute].
Qed.

Lemma rename_dirs_no_docs s : ~ occurs_in (py "docs/") (Codex.rename_dirs s).
Proof.
  unfold Codex.rename_dirs. cbv zeta.
  do 2 (apply replace_absent; [py_nonempty | by vm_compute | by vm_compute |]).
  apply replace_none_remain; [py_nonempty | by vm_compute | by vm_compute].
Qed.

(** The renames neither remove nor add a usage heading. *)
Lemma rename_dirs_keeps_heading s :
  occurs_in (py "## Codex CLI Usage") s ->
  occurs_in (py "## Codex CLI Usage") (Codex.rename_dirs s).
Proof.
  intros H. unfold Codex.rename_dirs. cbv zeta.
  do 4 (apply replace_keeps; [py_nonempty | by vm_compute | by vm_compute |]).
  exact H.
Qed.

Lemma rename_dirs_no_new_heading s :
  occurrences (py "## Codex CLI Usage") (Codex.rename_dirs s)
  <= occurrences (py "## Codex CLI Usage") s.
Proof.
  unfold Codex.rename_dirs. cbv zeta.
  do 4 (etrans; [apply replace_no_new; [py_nonempty | by vm_compute | by vm_compute]|]).
  done.
Qed.

(** ** The import rewrite *)

Section WordSub.
Variable unicode_word : char -> bool.
Variables lit rep : pystr.

Lemma word_run_split s :
  s = word_run unicode_word s ++ drop (length (word_run unicode_word s)) s.
Proof.
  induction s as [|c t IH]; [done|]. simpl.
  destruct (is_word unicode_word c); [|done]. simpl. by rewrite <- IH.
Qed.

Lemma word_run_Forall s :
  Forall (fun c => is_word unicode_word c = true) (word_run unicode_word s).
Proof.
  induction s as [|c t IH]; [constructor|]. simpl.
  destruct (is_word unicode_word c) eqn:E; by constructor.
Qed.

Lemma word_matcher_some s r k :
  word_matcher unicode_word lit rep s = Some (r, k) ->
  exists W rest, s = lit ++ W ++ rest /\ W <> [] /\ r = rep ++ W /\
                 S k = length lit + length W /\
                 Forall (fun c => is_word unicode_word c = true) W.
Proof.
  unfold word_matcher. destruct (startswith lit s) eqn:E; [|done].
  apply startswith_spec in E as [r' ->]. rewrite drop_app_length.
  pose proof (word_run_split r') as Hsplit. pose proof (word_run_Forall r') as Hall.
  destruct (word_run unicode_word r') as [|w ws]; [done|].
  intros [= <- <-]. exists (w :: ws), (drop (length (w :: ws)) r').
  split; [by rewrite <- Hsplit|]. split; [done|]. split; [done|].
  split; [simpl; lia | done].
Qed.

Lemma word_matcher_hit x rest :
  is_word unicode_word x = true ->
  word_matcher unicode_word lit rep (lit ++ x :: rest) <> None.
Proof.
  intros Hx. unfold word_matcher. rewrite startswith_app, drop_app_length.
  simpl. by rewrite Hx.
Qed.

Lemma word_matcher_dec s r k :
  word_matcher unicode_word lit rep s = Some (r, k) ->
  exists r0 W rest, s = lit ++ W ++ rest /\ r = r0 ++ W /\ S k = length lit + length W.
Proof.
  intros (W & rest & Hs & _ & Hr & Hk & _)%word_matcher_some.
  by exists rep, W, rest.
Qed.

(** Where the pattern occurs, the replacement text appears. *)
Lemma re_sub_word_creates s x :
  is_word unicode_word x = true ->
  occurs_in (lit ++ [x]) s -> occurs_in rep (re_sub_word unicode_word lit rep s).
Proof.
  intros Hx. unfold re_sub_word.
  enough (forall k, occurs_in (lit ++ [x]) (drop k s) ->
            occurs_in rep (scan_sub (word_matcher unicode_word lit rep) k s)) as E
    by apply (E 0).
  induction s as [|c t IH]; intros k.
  - destruct k; intros (a & b & Hab); destruct a, lit; discriminate.
  - destruct k as [|k]; [|apply IH].
    change (drop 0 (c :: t)) with (c :: t). intros Hocc. simpl scan_sub.
    destruct (word_matcher unicode_word lit rep (c :: t)) as [[r k]|] eqn:Hm.
    + apply word_matcher_some in Hm as (W & rest & _ & _ & -> & _).
      exists [], (W ++ scan_sub (word_matcher unicode_word lit rep) k t).
      by rewrite <- app_assoc.
    + apply str_in_spec in Hocc. simpl in Hocc. apply orb_true_iff in Hocc as [E|E].
      * apply startswith_spec in E as [r' E]. rewrite <- app_assoc in E. simpl in E.
        rewrite E in Hm. by apply word_matcher_hit in Hm.
      * apply occurs_in_cons, (IH 0), str_in_spec, E.
Qed.

(** A needle that overlaps neither the literal nor its tails is kept. *)
Lemma re_sub_word_keeps h s :
  clash_tails h lit = false -> clash_tails lit h = false ->
  occurs_in h s -> occurs_in h (re_sub_word unicode_word lit rep s).
Proof.
  intros H1 H2. unfold re_sub_word.
  apply (scan_keeps _ lit h word_matcher_dec H1 H2) with (k := 0).
Qed.
End WordSub.

Lemma rewrite_has_relative_import unicode_word content x :
  is_word unicode_word x = true ->
  occurs_in (py "from shared." ++ [x]) content ->
  occurs_in (py "from .shared.") (OpenCode._rewrite_shared_imports unicode_word content).
Proof.
  intros Hx Hocc. unfold OpenCode._rewrite_shared_imports. cbv zeta.
  apply re_sub_word_keeps; [by vm_compute | by vm_compute |].
  by apply (re_sub_word_creates _ _ _ _ x).
Qed.

(** ** Where a staged file ends up *)

Lemma endswith_exclusive e1 e2 p :
  compat (rev e1) (rev e2) = false -> endswith e1 p = true -> endswith e2 p = false.
Proof.
  unfold endswith. intros Hc H1. destruct (startswith (rev e2) (rev p)) eqn:H2; [|done].
  by rewrite (startswith_both_compat _ _ _ H1 H2) in Hc.
Qed.

Lemma rel_path_dir_ne p q :
  rel_path (py "code_analyzer") q <> rel_path (py "lsp-engine") p.
Proof. unfold rel_path. intros H. cbv in H. discriminate H. Qed.

Lemma bundle_with_lookup rw root m dir tree p c :
  bundle_with rw root = Ok m ->
  (dir = py "lsp-engine" /\ lsp_engine root = Some tree \/
   dir = py "code_analyzer" /\ code_analyzer root = Some tree) ->
  NoDup tree.*1 -> (p, Text c) ∈ tree -> endswith (py ".py") p = true ->
  m !! rel_path dir p = Some (Str (rw c)).
Proof.
  unfold bundle_with. intros H Hdir Hnd Hin Hpy.
  assert (Hstaged : forall acc m', stage_files dir rw (rglob (py ".py") tree) acc = Ok m' ->
            m' !! rel_path dir p = Some (Str (rw c))).
  { intros acc m'. apply stage_files_lookup; [by apply NoDup_rglob|].
    by apply elem_of_rglob. }
  destruct Hdir as [[-> Hl]|[-> Ha]].
  - rewrite Hl in H.
    destruct (stage_files _ _ (rglob (py ".py") tree) ∅) as [m1|] eqn:E1; [|done].
    simpl in H. apply Hstaged in E1.
    destruct (code_analyzer root) as [t|]; [|by injection H as <-].
    destruct (stage_files _ _ (rglob (py ".py") t) m1) as [m2|] eqn:E2; [|done].
    simpl in H.
    destruct (stage_files _ _ (rglob (py ".yml") t) m2) as [m3|] eqn:E3; [|done].
    simpl in H.
    rewrite (stage_files_other _ _ _ _ _ _ H), (stage_files_other _ _ _ _ _ _ E3),
      (stage_files_other _ _ _ _ _ _ E2); [done|..];
      intros q d _; apply rel_path_dir_ne.
  - destruct (match lsp_engine root with Some _ => _ | None => _ end) as [m1|]; [|done].
    simpl in H. rewrite Ha in H.
    destruct (stage_files _ _ (rglob (py ".py") tree) m1) as [m2|] eqn:E2; [|done].
    simpl in H. apply Hstaged in E2.
    destruct (stage_files _ _ (rglob (py ".yml") tree) m2) as [m3|] eqn:E3; [|done].
    simpl in H.
    rewrite (stage_files_other _ _ _ _ _ _ H), (stage_files_other _ _ _ _ _ _ E3);
      [done|..];
      intros q d [_ Hq]%elem_of_rglob ->%rel_path_inj; simpl in Hq;
      by rewrite (endswith_exclusive (py ".py") _ p) in Hq.
Qed.

(** ** What the import rewrite can leave behind *)

Lemma preceded_app_r unicode_word x y :
  preceded unicode_word y -> preceded unicode_word (x ++ y).
Proof.
  intros (c & Hc & Hok). exists c. split; [|done]. by rewrite last_app, Hc.
Qed.

Lemma last_app_nonempty (x y : pystr) : y <> [] -> last (x ++ y) = last y.
Proof.
  intros Hy. rewrite last_app. destruct (last y) eqn:E; [done|].
  by apply last_None in E.
Qed.

Section LeftOver.
Variable unicode_word : char -> bool.
Variables lit rep h0 : pystr.
Hypothesis Hneedle_rep : clash_tails h0 rep = false.
Hypothesis Hrep_needle : clash_tails rep h0 = false.
Hypothesis Hrep_end : preceded unicode_word rep.
Hypothesis Hlit : exists l0 lit', lit = l0 :: lit' /\ is_word unicode_word l0 = true.

(** Where the output reads a tail of [h0] and then a word character, the
    input reads the same tail and then a word character. *)
Lemma scan_copy_back u a0 s x :
  h0 = a0 ++ u -> is_word unicode_word x = true ->
  startswith (u ++ [x]) (scan_sub (word_matcher unicode_word lit rep) 0 s) = true ->
  exists y, is_word unicode_word y = true /\ startswith (u ++ [y]) s = true.
Proof using Hneedle_rep Hlit.
  intros Hh Hx. revert a0 s Hh. induction u as [|c u IH]; intros a0 s Hh.
  - destruct s as [|d t]; [done|]. rewrite scan_sub_cons.
    destruct (word_matcher unicode_word lit rep (d :: t)) as [[r k]|] eqn:Hm.
    + intros _. apply word_matcher_some in Hm as (W & rest & Hs & _).
      destruct Hlit as (l0 & lit' & -> & Hl0). injection Hs as -> _.
      exists l0. split; [done|]. simpl. by rewrite N.eqb_refl.
    + simpl. rewrite andb_true_r. intros ->%N.eqb_eq.
      exists d. split; [done|]. by rewrite N.eqb_refl.
  - destruct s as [|d t]; [done|]. rewrite scan_sub_cons.
    destruct (word_matcher unicode_word lit rep (d :: t)) as [[r k]|] eqn:Hm.
    + apply word_matcher_some in Hm as (W & rest & _ & _ & -> & _).
      intros [r' Hr']%startswith_spec. rewrite <- !app_assoc in Hr'.
      apply compat_common in Hr'. rewrite compat_sym in Hr'.
      by rewrite (clash_tails_false _ _ Hneedle_rep a0 (c :: u) Hh) in Hr'.
    + simpl. intros [Hcd E]%andb_true_iff.
      destruct (IH (a0 ++ [c]) t) as (y & Hy & Hs); [by rewrite <- app_assoc | done |].
      exists y. split; [done|]. simpl. by rewrite Hcd, Hs.
Qed.

(** Every occurrence of [h0] followed by a word character in the output
    stands after a word character or a dot, if that holds of the input at
    the positions where the substitution finds no match. *)
Lemma scan_left_over s k ipre opre :
  last ipre = last opre ->
  (forall a1 y b, drop k s = a1 ++ (h0 ++ [y]) ++ b -> is_word unicode_word y = true ->
     word_matcher unicode_word lit rep ((h0 ++ [y]) ++ b) = None ->
     preceded unicode_word (ipre ++ a1)) ->
  forall a1 x b,
    scan_sub (word_matcher unicode_word lit rep) k s = a1 ++ (h0 ++ [x]) ++ b ->
    is_word unicode_word x = true -> preceded unicode_word (opre ++ a1).
Proof using Hneedle_rep Hrep_needle Hrep_end Hlit.
  revert k ipre opre.
  induction s as [|c t IH]; intros k ipre opre Hlast Hin a1 x b Hout Hx.
  { destruct a1, h0; discriminate. }
  destruct k as [|k]; [|by apply (IH k ipre opre Hlast Hin a1 x b)].
  change (drop 0 (c :: t)) with (c :: t) in Hin. simpl scan_sub in Hout.
  destruct (word_matcher unicode_word lit rep (c :: t)) as [[r k]|] eqn:Hm.
  - apply word_matcher_some in Hm as (W & rest & Hs & HW & -> & Hk & Hall).
    assert (Hrest : drop k t = rest).
    { change (drop k t) with (drop (S k) (c :: t)).
      by rewrite Hs, Hk, app_assoc, <- length_app, drop_app_length. }
    assert (Hnext : forall v, scan_sub (word_matcher unicode_word lit rep) k t
                                = v ++ (h0 ++ [x]) ++ b ->
              preceded unicode_word (opre ++ rep ++ W ++ v)).
    { intros v Hv. rewrite !app_assoc, <- (app_assoc opre).
      apply (IH k (ipre ++ lit ++ W) (opre ++ rep ++ W)) with (x := x) (b := b);
        [|  |done..].
      - by rewrite !app_assoc, !last_app_nonempty.
      - intros a2 y b2 Hd Hy Hnone. rewrite <- !app_assoc.
        apply (Hin _ y b2); [|done..].
        rewrite Hs, <- Hrest, Hd. by rewrite <- !app_assoc. }
    rewrite <- app_assoc in Hout.
    apply app_eq_inv in Hout as [(u & Hrep & Hu)|(u & -> & Hu)].
    + destruct u as [|u0 u'].
      * rewrite app_nil_r in Hrep. subst a1. by apply preceded_app_r.
      * rewrite <- app_assoc in Hu. apply compat_common in Hu. rewrite compat_sym in Hu.
        by rewrite (clash_tails_false _ _ Hrep_needle a1 (u0 :: u') Hrep) in Hu.
    + apply app_eq_inv in Hu as [(v & HWv & Hv)|(v & -> & Hv)].
      * destruct v as [|v0 v'].
        -- rewrite app_nil_r in HWv. subst u.
           assert (Hp := Hnext [] (eq_sym Hv)). by rewrite app_nil_r in Hp.
        -- destruct u as [|u0 u'] using rev_ind.
           ++ rewrite app_nil_r. by apply preceded_app_r.
           ++ exists u0. rewrite !app_assoc, last_snoc. split; [done|].
              unfold ok_before. rewrite Forall_forall in Hall.
              rewrite (Hall u0); [done|]. rewrite HWv.
              rewrite !elem_of_app, elem_of_cons. tauto.
      * by apply Hnext.
  - destruct a1 as [|c' a1'].
    + rewrite app_nil_r.
      destruct (scan_copy_back h0 [] (c :: t) x eq_refl Hx) as (y & Hy & [b' Hb']%startswith_spec).
      { rewrite scan_sub_cons, Hm, Hout, app_nil_l. apply startswith_app. }
      assert (Hp : preceded unicode_word (ipre ++ [])).
      { apply (Hin [] y b'); [done | done | by rewrite <- Hb']. }
      rewrite app_nil_r in Hp. unfold preceded in *. by rewrite <- Hlast.
    + injection Hout as <- Hout. rewrite cons_middle, app_assoc.
      apply (IH 0 (ipre ++ [c]) (opre ++ [c])) with (x := x) (b := b); [| |done..].
      * by rewrite !last_snoc.
      * intros a2 y b2 Hd Hy Hnone. change (drop 0 t) with t in Hd.
        rewrite <- app_assoc. apply (Hin (c :: a2) y b2); [|done..].
        by rewrite Hd.
Qed.
End LeftOver.

(** What is left of [from shared.<name>] after the rewrite stands after a
    word character or a dot. *)
Lemma rewrite_left_over unicode_word content a x b :
  OpenCode._rewrite_shared_imports unicode_word content
    = a ++ (py "from shared." ++ [x]) ++ b ->
  is_word unicode_word x = true -> preceded unicode_word a.
Proof.
  unfold OpenCode._rewrite_shared_imports, re_sub_word. cbv zeta. intros Hout Hx.
  change a with ([] ++ a).
  refine (scan_left_over unicode_word (py "import shared.") (py "from . import shared.")
            (py "from shared.") _ _ _ _ _ 0 [] [] eq_refl _ a x b Hout Hx).
  - by vm_compute.
  - by vm_compute.
  - exists 46%N. split; vm_compute; reflexivity.
  - eexists _, _. split; vm_compute; reflexivity.
  - intros a1 y b1 Hd Hy _. change (drop 0 ?s) with s in Hd.
    refine (scan_left_over unicode_word (py "from shared.") (py "from .shared.")
              (py "from shared.") _ _ _ _ _ 0 [] [] eq_refl _ a1 y b1 Hd Hy).
    + by vm_compute.
    + by vm_compute.
    + exists 46%N. split; vm_compute; reflexivity.
    + eexists _, _. split; vm_compute; reflexivity.
    + intros a2 z b2 _ Hz Hnone. rewrite <- app_assoc in Hnone.
      by apply word_matcher_hit in Hnone.
Qed.

(** ** The usage section and its heading *)

Lemma heading_in_section (a : adapter) skill_name :
  occurs_in (usage_heading a) (usage_section a skill_name).
Proof.
  destruct a; apply occurs_in_app_l, str_in_spec; vm_compute; reflexivity.
Qed.

(** Each [transform_skill_md] ends with the same guarded append. *)
Lemma transform_skill_md_unfold common (a : adapter) content skill_name :
  transform_skill_md common a content skill_name =
  let body := body_renames a (common content) in
  if str_in (usage_heading a) body then body
  else body ++ usage_section a skill_name.
Proof.
  destruct a;
    unfold transform_skill_md, OpenCode.transform_skill_md, Codex.transform_skill_md,
      Gemini.transform_skill_md, body_renames, usage_heading, usage_section;
    cbv zeta; by destruct (str_in _ _).
Qed.

Lemma body_renames_no_new_heading (a : adapter) s :
  occurrences (usage_heading a) (body_renames a s) <= occurrences (usage_heading a) s.
Proof. destruct a; [done | apply rename_dirs_no_new_heading | done]. Qed.

Lemma occurrences_zero h s : ~ occurs_in h s -> occurrences h s = 0.
Proof. rewrite <- occurrences_pos. lia. Qed.

Lemma occurrences_app_r_end h x p :
  h <> [] -> clash_tails (tail h) p = false ->
  occurrences h (x ++ p) = occurrences h x + occurrences h p.
Proof.
  intros Hh Hc. pose proof (occurrences_app_r h x p [] Hh Hc) as H.
  by rewrite app_nil_r in H.
Qed.

Ltac seam := first [py_nonempty | vm_compute; reflexivity].

(** The section holds its heading once, whatever the skill is called, as
    long as the name does not hold the heading itself. *)
Lemma section_occurrences (a : adapter) skill_name :
  ~ occurs_in (usage_heading a) skill_name ->
  occurrences (usage_heading a) (usage_section a skill_name) = 1.
Proof.
  intros Hname%occurrences_zero.
  destruct a; unfold usage_section, usage_heading in *.
  - unfold OpenCode.opencode_section.
    rewrite occurrences_app_l by seam.
    rewrite (occurrences_app_r _ skill_name) by seam.
    rewrite occurrences_app_l by seam.
    rewrite (occurrences_app_r_end _ skill_name) by seam.
    rewrite Hname. vm_compute; reflexivity.
  - unfold Codex.codex_section.
    rewrite occurrences_app_l by seam.
    rewrite (occurrences_app_r _ skill_name) by seam.
    rewrite occurrences_app_l by seam.
    rewrite (occurrences_app_r_end _ skill_name) by seam.
    rewrite Hname. vm_compute; reflexivity.
  - unfold Gemini.gemini_section.
    rewrite occurrences_app_l by seam.
    rewrite (occurrences_app_r _ skill_name) by seam.
    rewrite occurrences_app_l by seam.
    rewrite (occurrences_app_r _ skill_name) by seam.
    rewrite occurrences_app_l by seam.
    rewrite (occurrences_app_r _ skill_name) by seam.
    rewrite occurrences_app_l by seam.
    rewrite (occurrences_app_r_end _ skill_name) by seam.
    rewrite Hname. vm_compute; reflexivity.
Qed.

(** One application leaves the heading exactly once when the body held it
    at most once and the name does not hold it. *)
Lemma transform_skill_md_once common (a : adapter) t skill_name :
  ~ occurs_in (usage_heading a) skill_name ->
  occurrences (usage_heading a) (body_renames a (common t)) <= 1 ->
  occurrences (usage_heading a) (transform_skill_md common a t skill_name) = 1.
Proof.
  intros Hname Hle. rewrite transform_skill_md_unfold. cbv zeta.
  destruct (str_in _ _) eqn:E.
  - apply str_in_spec, occurrences_pos in E. lia.
  - apply str_in_false, occurrences_zero in E.
    assert (Hsplit : occurrences (usage_heading a)
                       (body_renames a (common t) ++ usage_section a skill_name)
                     = occurrences (usage_heading a) (body_renames a (common t))
                       + occurrences (usage_heading a) (usage_section a skill_name)).
    { destruct a; unfold usage_section, usage_heading, OpenCode.opencode_section,
        Codex.codex_section, Gemini.gemini_section;
        apply occurrences_app_r; seam. }
    rewrite Hsplit, E, section_occurrences; done.
Qed.

(** ** Further lemmas on bundling and on the substitutions *)

Lemma endswith_rel_path ext dir p :
  endswith ext p = true -> endswith ext (rel_path dir p) = true.
Proof.
  unfold endswith, rel_path. rewrite !rev_app_distr, <- app_assoc.
  apply startswith_app_l.
Qed.

Lemma rel_path_startswith dir p : startswith (dir ++ py "/") (rel_path dir p) = true.
Proof. unfold rel_path. rewrite app_assoc. apply startswith_app. Qed.

Lemma bundle_shared_modules_rewrite unicode_word (a : adapter) root :
  _bundle_shared_modules unicode_word a root
  = bundle_with (py_rewrite unicode_word a) root.
Proof. by destruct a. Qed.

(** Where every entry of a bundle comes from. *)
Lemma bundle_with_inv rw root m k v :
  bundle_with rw root = Ok m -> m !! k = Some v ->
  (exists tree p c, lsp_engine root = Some tree /\ (p, Text c) ∈ tree /\
     endswith (py ".py") p = true /\
     k = rel_path (py "lsp-engine") p /\ v = Str (rw c)) \/
  (exists tree p c, code_analyzer root = Some tree /\ (p, Text c) ∈ tree /\
     k = rel_path (py "code_analyzer") p /\
     (endswith (py ".py") p = true /\ v = Str (rw c) \/
      endswith (py ".yml") p = true /\ v = Str c \/
      endswith (py ".xml") p = true /\ v = Str c)).
Proof.
  unfold bundle_with. intros H Hv.
  assert (Hlsp : forall m1,
    match lsp_engine root with
    | Some lsp_dir => stage_files (py "lsp-engine") rw (rglob (py ".py") lsp_dir) ∅
    | None => Ok ∅
    end = Ok m1 -> m1 !! k = Some v ->
    exists tree p c, lsp_engine root = Some tree /\ (p, Text c) ∈ tree /\
      endswith (py ".py") p = true /\
      k = rel_path (py "lsp-engine") p /\ v = Str (rw c)).
  { intros m1 H1 Hv1. destruct (lsp_engine root) as [l|].
    - apply (stage_files_inv _ _ _ _ _ H1) in Hv1
        as [Hv1 | (p & c & [Hin Hext]%elem_of_rglob & -> & ->)]; [done|].
      by exists l, p, c.
    - injection H1 as <-. done. }
  destruct (match lsp_engine root with Some _ => _ | None => _ end) as [m1|]; [|done].
  specialize (Hlsp m1 eq_refl). simpl in H.
  destruct (code_analyzer root) as [t|]; [|injection H as <-; left; eauto].
  destruct (stage_files _ _ (rglob (py ".py") t) m1) as [m2|] eqn:E2; [|done].
  simpl in H.
  destruct (stage_files _ _ (rglob (py ".yml") t) m2) as [m3|] eqn:E3; [|done].
  simpl in H.
  apply (stage_files_inv _ _ _ _ _ H) in Hv
    as [Hv | (p & c & [Hin Hext]%elem_of_rglob & -> & ->)];
    [|right; exists t, p, c; eauto 10].
  apply (stage_files_inv _ _ _ _ _ E3) in Hv
    as [Hv | (p & c & [Hin Hext]%elem_of_rglob & -> & ->)];
    [|right; exists t, p, c; eauto 10].
  apply (stage_files_inv _ _ _ _ _ E2) in Hv
    as [Hv | (p & c & [Hin Hext]%elem_of_rglob & -> & ->)];
    [|right; exists t, p, c; eauto 10].
  left. eauto.
Qed.

Lemma bundle_with_lookup_config rw root m tree p c :
  bundle_with rw root = Ok m ->
  code_analyzer root = Some tree -> NoDup tree.*1 -> (p, Text c) ∈ tree ->
  endswith (py ".yml") p = true \/ endswith (py ".xml") p = true ->
  m !! rel_path (py "code_analyzer") p = Some (Str c).
Proof.
  unfold bundle_with. intros H Ha Hnd Hin Hext.
  destruct (match lsp_engine root with Some _ => _ | None => _ end) as [m1|]; [|done].
  simpl in H. rewrite Ha in H.
  destruct (stage_files _ _ (rglob (py ".py") tree) m1) as [m2|] eqn:E2; [|done].
  simpl in H.
  destruct (stage_files _ _ (rglob (py ".yml") tree) m2) as [m3|] eqn:E3; [|done].
  simpl in H. destruct Hext as [Hyml|Hxml].
  - rewrite (stage_files_other _ _ _ _ _ _ H).
    + apply (stage_files_lookup _ _ _ _ _ p c (NoDup_rglob (py ".yml") _ Hnd)
               ltac:(by apply elem_of_rglob) E3).
    + intros q d [_ Hq]%elem_of_rglob ->%rel_path_inj. simpl in Hq.
      by rewrite (endswith_exclusive (py ".yml") _ p) in Hq.
  - apply (stage_files_lookup _ _ _ _ _ p c (NoDup_rglob (py ".xml") _ Hnd)
             ltac:(by apply elem_of_rglob) H).
Qed.

Lemma scan_sub_no_match m s :
  (forall a b, s = a ++ b -> m b = None) -> scan_sub m 0 s = s.
Proof.
  induction s as [|c t IH]; intros H; [done|]. simpl.
  rewrite (H [] (c :: t) eq_refl). f_equal. apply IH.
  intros a b ->. by apply (H (c :: a) b).
Qed.

Lemma str_replace_absent old new s :
  old <> [] -> ~ occurs_in old s -> str_replace old new s = s.
Proof.
  intros Hold Hocc. rewrite str_replace_scan by done. apply scan_sub_no_match.
  intros a b ->. unfold replace_matcher.
  destruct (startswith old b) eqn:E; [|done].
  destruct Hocc. apply startswith_spec in E as [r ->]. by exists a, r.
Qed.

Lemma re_sub_word_absent unicode_word lit rep s :
  (forall x, is_word unicode_word x = true -> ~ occurs_in (lit ++ [x]) s) ->
  re_sub_word unicode_word lit rep s = s.
Proof.
  intros Hocc. apply scan_sub_no_match. intros a b ->.
  destruct (word_matcher unicode_word lit rep b) as [[r k]|] eqn:Hm; [|done].
  apply word_matcher_some in Hm as (W & rest & -> & HW & _ & _ & Hall).
  destruct W as [|w W]; [done|]. apply Forall_cons in Hall as [Hw _].
  destruct (Hocc w Hw). exists a, (W ++ rest). by rewrite <- !app_assoc.
Qed.

Section KeepWord.
Variable unicode_word : char -> bool.
Variables lit rep h0 : pystr.
Hypothesis Hneedle_lit : clash_tails h0 lit = false.
Hypothesis Hlit_needle : clash_tails lit h0 = false.
Hypothesis Hrep : exists r0 rep', rep = r0 :: rep' /\ is_word unicode_word r0 = true.

(** Where the input reads a tail of [h0] and then a word character, so does
    the output. *)
Lemma scan_copy_forward u a0 s x :
  h0 = a0 ++ u -> is_word unicode_word x = true ->
  startswith (u ++ [x]) s = true ->
  exists y, is_word unicode_word y = true /\
            startswith (u ++ [y]) (scan_sub (word_matcher unicode_word lit rep) 0 s) = true.
Proof using Hneedle_lit Hrep.
  intros Hh Hx. revert a0 s Hh. induction u as [|c u IH]; intros a0 s Hh.
  - destruct s as [|d t]; [done|]. simpl app. rewrite scan_sub_cons.
    simpl startswith at 1. rewrite andb_true_r. intros ->%N.eqb_eq.
    destruct (word_matcher unicode_word lit rep (d :: t)) as [[r k]|] eqn:Hm.
    + apply word_matcher_some in Hm as (W & rest & _ & _ & -> & _).
      destruct Hrep as (r0 & rep' & -> & Hr0). exists r0. split; [done|].
      simpl. by rewrite N.eqb_refl.
    + exists d. split; [done|]. simpl. by rewrite N.eqb_refl.
  - destruct s as [|d t]; [done|]. intros E. rewrite scan_sub_cons.
    destruct (word_matcher unicode_word lit rep (d :: t)) as [[r k]|] eqn:Hm.
    + apply word_matcher_some in Hm as (W & rest & Hs & _).
      assert (Hp : startswith lit (d :: t) = true) by (rewrite Hs; apply startswith_app).
      apply startswith_spec in E as [r' E]. rewrite <- app_assoc in E.
      assert (Hu : startswith (c :: u) (d :: t) = true)
        by (rewrite E; apply startswith_app).
      pose proof (startswith_both_compat _ _ _ Hu Hp) as Hc.
      by rewrite (clash_tails_false _ _ Hneedle_lit a0 (c :: u) Hh) in Hc.
    + simpl in E. apply andb_true_iff in E as [Hcd E].
      destruct (IH (a0 ++ [c]) t) as (y & Hy & Hs); [by rewrite <- app_assoc | done |].
      exists y. split; [done|]. simpl. by rewrite Hcd, Hs.
Qed.

(** An occurrence of [h0] followed by a word character survives the
    substitution, up to that character. *)
Lemma scan_keeps_word s k :
  (exists x, is_word unicode_word x = true /\ occurs_in (h0 ++ [x]) (drop k s)) ->
  exists y, is_word unicode_word y = true /\
            occurs_in (h0 ++ [y]) (scan_sub (word_matcher unicode_word lit rep) k s).
Proof using Hneedle_lit Hlit_needle Hrep.
  revert k. induction s as [|c t IH]; intros k.
  { intros (x & _ & a & b & Hab). destruct k, a, h0; discriminate. }
  destruct k as [|k]; [|apply IH].
  change (drop 0 (c :: t)) with (c :: t). intros (x & Hx & Hocc). simpl scan_sub.
  destruct (word_matcher unicode_word lit rep (c :: t)) as [[r k]|] eqn:Hm.
  - apply word_matcher_some in Hm as (W & rest & Hs & _ & -> & Hk & _).
    assert (Hrest : drop k t = rest).
    { change (drop k t) with (drop (S k) (c :: t)).
      by rewrite Hs, Hk, app_assoc, <- length_app, drop_app_length. }
    destruct Hocc as (a & b & Hab). rewrite Hs in Hab.
    assert (exists u, W ++ rest = u ++ (h0 ++ [x]) ++ b) as [u Hu].
    { apply app_eq_inv in Hab as [(u & Ha & Hb)|(u & _ & Hb)]; [|by exists u].
      destruct u as [|u0 u']; [by exists []|].
      rewrite <- app_assoc in Hb. symmetry in Hb. apply compat_common in Hb.
      by rewrite (clash_tails_false _ _ Hlit_needle a (u0 :: u') Ha) in Hb. }
    assert (Hin_W : forall u1 u2, W = u1 ++ (h0 ++ [x]) ++ u2 ->
              exists y, is_word unicode_word y = true /\
                occurs_in (h0 ++ [y])
                  ((rep ++ W) ++ scan_sub (word_matcher unicode_word lit rep) k t)).
    { intros u1 u2 ->. exists x. split; [done|].
      exists (rep ++ u1), (u2 ++ scan_sub (word_matcher unicode_word lit rep) k t).
      by rewrite <- !app_assoc. }
    apply app_eq_inv in Hu as [(v & HW & Hv)|(v & _ & Hv)].
    + apply app_eq_inv in Hv as [(z & Hz & Hrest')|(z & -> & _)]; [|by apply (Hin_W u z)].
      destruct z as [|x' z' _] using rev_ind.
      { rewrite app_nil_r in Hz. subst v. apply (Hin_W u []). by rewrite app_nil_r. }
      rewrite app_assoc in Hz. apply app_inj_tail in Hz as [Hh <-].
      destruct (scan_copy_forward z' v rest x Hh Hx) as (y & Hy & [r' Hr']%startswith_spec).
      { rewrite Hrest'. apply startswith_app. }
      exists y. split; [done|]. rewrite scan_sub_skip, Hrest, Hr', HW, Hh.
      exists (rep ++ u), r'. by rewrite <- !app_assoc.
    + destruct (IH k) as (y & Hy & Hoccy).
      { exists x. split; [done|]. rewrite Hrest, Hv. by exists v, b. }
      exists y. split; [done|]. by apply occurs_in_app_r.
  - apply str_in_spec in Hocc. simpl in Hocc. apply orb_true_iff in Hocc as [E|E].
    + destruct (scan_copy_forward h0 [] (c :: t) x eq_refl Hx E) as (y & Hy & Hs).
      rewrite scan_sub_cons, Hm in Hs. exists y. split; [done|].
      apply str_in_spec. simpl str_in. by rewrite Hs.
    + destruct (IH 0) as (y & Hy & Hoccy).
      { exists x. split; [done|]. by apply str_in_spec. }
      exists y. split; [done|]. by apply occurs_in_cons.
Qed.
End KeepWord.

Lemma re_sub_word_creates_word unicode_word lit rep s x :
  is_word unicode_word x = true -> occurs_in (lit ++ [x]) s ->
  exists y, is_word unicode_word y = true /\
            occurs_in (rep ++ [y]) (re_sub_word unicode_word lit rep s).
Proof.
  intros Hx. unfold re_sub_word.
  enough (forall k, occurs_in (lit ++ [x]) (drop k s) ->
            exists y, is_word unicode_word y = true /\
              occurs_in (rep ++ [y])
                (scan_sub (word_matcher unicode_word lit rep) k s)) as E
    by apply (E 0).
  induction s as [|c t IH]; intros k.
  - destruct k; intros (a & b & Hab); destruct a, lit; discriminate.
  - destruct k as [|k]; [|apply IH].
    change (drop 0 (c :: t)) with (c :: t). intros Hocc. simpl scan_sub.
    destruct (word_matcher unicode_word lit rep (c :: t)) as [[r k]|] eqn:Hm.
    + apply word_matcher_some in Hm as (W & rest & _ & HW & -> & _ & Hall).
      destruct W as [|w W]; [done|]. apply Forall_cons in Hall as [Hw _].
      exists w. split; [done|].
      exists [], (W ++ scan_sub (word_matcher unicode_word lit rep) k t).
      by rewrite <- !app_assoc.
    + apply str_in_spec in Hocc. simpl in Hocc. apply orb_true_iff in Hocc as [E|E].
      * apply startswith_spec in E as [r' E]. rewrite <- app_assoc in E. simpl in E.
        rewrite E in Hm. by apply word_matcher_hit in Hm.
      * destruct (IH 0) as (y & Hy & Hoccy); [by apply str_in_spec|].
        exists y. split; [done|]. by apply occurs_in_cons.
Qed.


(** ** When bundling succeeds *)

Lemma stage_files_readable dir rw files acc m p d :
  stage_files dir rw files acc = Ok m -> (p, d) ∈ files -> exists c, d = Text c.
Proof.
  revert acc. induction files as [|[q d'] rest IH]; intros acc H Hin.
  - by apply elem_of_nil in Hin.
  - simpl in H. destruct d' as [c'|why]; simpl in H; [|done].
    apply elem_of_cons in Hin as [[= -> ->]|Hin]; [by exists c' | by apply (IH _ H)].
Qed.

(** A successful bundle has read every file it collects. *)
Lemma bundle_with_readable rw root m tree p d :
  bundle_with rw root = Ok m -> collected root tree p -> (p, d) ∈ tree ->
  exists c, d = Text c.
Proof.
  unfold bundle_with, collected. intros H Hc Hin.
  destruct (lsp_engine root) as [l|].
  - destruct (stage_files _ _ (rglob (py ".py") l) ∅) as [m1|] eqn:E1; [|done].
    simpl in H.
    destruct Hc as [[[= ->] Hpy]|[Ha Hext]].
    { apply (stage_files_readable _ _ _ _ _ p d E1). by apply elem_of_rglob. }
    destruct (code_analyzer root) as [t|]; [|done]. injection Ha as ->.
    destruct (stage_files _ _ (rglob (py ".py") tree) m1) as [m2|] eqn:E2; [|done].
    simpl in H.
    destruct (stage_files _ _ (rglob (py ".yml") tree) m2) as [m3|] eqn:E3; [|done].
    simpl in H.
    destruct Hext as [Hx|[Hx|Hx]].
    + apply (stage_files_readable _ _ _ _ _ p d E2). by apply elem_of_rglob.
    + apply (stage_files_readable _ _ _ _ _ p d E3). by apply elem_of_rglob.
    + apply (stage_files_readable _ _ _ _ _ p d H). by apply elem_of_rglob.
  - simpl in H. destruct Hc as [[[=] _]|[Ha Hext]].
    destruct (code_analyzer root) as [t|]; [|done]. injection Ha as ->.
    destruct (stage_files _ _ (rglob (py ".py") tree) ∅) as [m2|] eqn:E2; [|done].
    simpl in H.
    destruct (stage_files _ _ (rglob (py ".yml") tree) m2) as [m3|] eqn:E3; [|done].
    simpl in H.
    destruct Hext as [Hx|[Hx|Hx]].
    + apply (stage_files_readable _ _ _ _ _ p d E2). by apply elem_of_rglob.
    + apply (stage_files_readable _ _ _ _ _ p d E3). by apply elem_of_rglob.
    + apply (stage_files_readable _ _ _ _ _ p d H). by apply elem_of_rglob.
Qed.

(** Bundling succeeds when every file it collects can be read. *)
Lemma bundle_with_ok rw root :
  (forall tree p why, collected root tree p -> (p, Unreadable why) ∉ tree) ->
  exists m, bundle_with rw root = Ok m.
Proof.
  intros Hall. destruct (bundle_with rw root) as [m|e] eqn:E; [by exists m|].
  apply bundle_with_raise in E as (tree & p & why & Hc & Hin & _).
  by destruct (Hall tree p why Hc).
Qed.

(** ** [_rewrite_shared_imports]: the rewritten form with its name *)

(** Where the text holds [from shared.] followed by a word character, the
    rewritten text holds [from .shared.] followed by a word character: the
    second substitution does not take it apart. *)
Lemma rewrite_has_relative_import_word unicode_word content x :
  is_word unicode_word x = true ->
  occurs_in (py "from shared." ++ [x]) content ->
  exists y, is_word unicode_word y = true /\
            occurs_in (py "from .shared." ++ [y])
              (OpenCode._rewrite_shared_imports unicode_word content).
Proof.
  intros Hx Hocc. unfold OpenCode._rewrite_shared_imports. cbv zeta.
  destruct (re_sub_word_creates_word unicode_word (py "from shared.") (py "from .shared.")
              content x Hx Hocc) as (y & Hy & Hoccy).
  apply (scan_keeps_word unicode_word (py "import shared.") (py "from . import shared.")
           (py "from .shared.") ltac:(by vm_compute) ltac:(by vm_compute)
           ltac:(eexists _, _; split; vm_compute; reflexivity) _ 0).
  exists y. by rewrite drop_0.
Qed.

(** ** Cutting a replacement at a known text *)

Lemma blockers_from_spec mid rest prev a z :
  rest = a ++ z -> z <> [] -> compat z mid = true ->
  exists c, last (prev :: a) = Some c /\ c ∈ blockers_from prev rest mid.
Proof.
  revert rest prev. induction a as [|b a IH]; intros rest prev -> Hz Hc.
  - exists prev. split; [done|]. destruct z as [|c z]; [done|].
    simpl in *. rewrite Hc. apply elem_of_cons. by left.
  - destruct (IH (a ++ z) b eq_refl Hz Hc) as (c & Hlast & Hin).
    exists c. split; [by rewrite last_cons, Hlast|].
    simpl. apply elem_of_app. by right.
Qed.

(** An occurrence of [old] that starts in a non-empty [t] and runs past its
    end into [mid] ends [t] with a blocker. *)
Lemma blockers_spec old mid t y :
  t <> [] -> startswith old (t ++ mid ++ y) = true -> startswith old t = false ->
  exists c, last t = Some c /\ c ∈ blockers old mid.
Proof.
  intros Ht Hs Hn.
  assert (Hto : startswith t old = true).
  { pose proof (startswith_app_compat _ _ _ Hs) as Hc. unfold compat in Hc.
    by rewrite Hn in Hc. }
  apply startswith_spec in Hto as [z ->].
  destruct z as [|z0 z].
  { pose proof (startswith_app t []) as Hx. rewrite app_nil_r in Hx, Hn. congruence. }
  apply startswith_spec in Hs as [r Hr]. rewrite <- app_assoc in Hr.
  apply app_inv_head in Hr.
  assert (Hc : compat (z0 :: z) mid = true).
  { rewrite compat_sym. exact (compat_common _ _ _ _ Hr). }
  destruct t as [|t0 t]; [done|].
  destruct (blockers_from_spec mid (t ++ z0 :: z) t0 t (z0 :: z) eq_refl ltac:(done) Hc)
    as (c & Hlast & Hin).
  by exists c.
Qed.

Lemma last_suffix (x a t : pystr) : x = a ++ t -> t <> [] -> last x = last t.
Proof.
  intros -> Ht. rewrite last_app. destruct (last t) eqn:E; [done|].
  by apply last_None in E.
Qed.

(** The next character of an occurrence of [old] that starts in a non-empty
    tail of [mid] and runs past its end. *)
Lemma openers_spec old mid a t y :
  mid = a ++ t -> t <> [] -> startswith old (t ++ y) = true ->
  startswith old t = false ->
  exists c, head y = Some c /\ c ∈ openers mid old.
Proof.
  revert mid. induction a as [|b a IH]; intros mid -> Ht Hs Hn.
  - assert (Hto : startswith t old = true).
    { pose proof (startswith_app_compat _ _ _ Hs) as Hc. unfold compat in Hc.
      by rewrite Hn in Hc. }
    destruct t as [|t0 t]; [done|]. apply startswith_spec in Hto as [z ->].
    apply startswith_spec in Hs as [r Hr]. rewrite <- app_assoc in Hr.
    apply app_inv_head in Hr.
    destruct z as [|z0 z].
    { pose proof (startswith_app (t0 :: t) []) as Hx. rewrite app_nil_r in Hx, Hn.
      congruence. }
    exists z0. split; [by rewrite Hr|].
    change (openers ([] ++ t0 :: t) ((t0 :: t) ++ z0 :: z))
      with ((if startswith (t0 :: t) ((t0 :: t) ++ z0 :: z)
             then option_list (head (drop (length (t0 :: t)) ((t0 :: t) ++ z0 :: z)))
             else []) ++ openers t ((t0 :: t) ++ z0 :: z)).
    rewrite startswith_app, drop_app_length. apply elem_of_app. left.
    apply elem_of_cons. by left.
  - destruct (IH (a ++ t) eq_refl Ht Hs Hn) as (c & Hc & Hin).
    exists c. split; [done|].
    change (openers ((b :: a) ++ t) old)
      with ((if startswith ((b :: a) ++ t) old
             then option_list (head (drop (length ((b :: a) ++ t)) old))
             else []) ++ openers (a ++ t) old).
    apply elem_of_app. by right.
Qed.

Section Cut.
Variables old new : pystr.
Hypothesis Hold : old <> [].

(** Where no occurrence of [old] starts in [x] and runs past its end, the
    scan of [x ++ rest] is the scan of [x] followed by the scan of
    [rest]. *)
Lemma scan_replace_app x rest k :
  (forall a t, x = a ++ t -> t <> [] -> startswith old (t ++ rest) = true ->
               startswith old t = true) ->
  k <= length x ->
  scan_sub (replace_matcher old new) k (x ++ rest)
  = scan_sub (replace_matcher old new) k x ++ scan_sub (replace_matcher old new) 0 rest.
Proof using Hold.
  revert k. induction x as [|c x IH]; intros k Hno Hk.
  - simpl in Hk. by replace k with 0 by lia.
  - assert (Hno' : forall a t, x = a ++ t -> t <> [] ->
              startswith old (t ++ rest) = true -> startswith old t = true).
    { intros a t -> Ht. by apply (Hno (c :: a) t). }
    destruct k as [|k].
    + rewrite <- app_comm_cons, !scan_sub_cons. unfold replace_matcher.
      rewrite app_comm_cons.
      destruct (startswith old ((c :: x) ++ rest)) eqn:E.
      * rewrite (Hno [] (c :: x) eq_refl ltac:(done) E).
        pose proof (Hno [] (c :: x) eq_refl ltac:(done) E) as [r Hr]%startswith_spec.
        rewrite <- !scan_sub_skip, <- app_assoc. f_equal. apply IH; [done|].
        destruct old as [|o old']; [done|]. simpl in *.
        injection Hr as _ ->. rewrite length_app. lia.
      * destruct (startswith old (c :: x)) eqn:E'.
        { by rewrite (startswith_app_l _ _ rest E') in E. }
        rewrite <- app_comm_cons. f_equal. apply IH; [done | lia].
    + simpl. apply IH; [done | simpl in Hk; lia].
Qed.

Lemma replace_app x rest :
  (forall a t, x = a ++ t -> t <> [] -> startswith old (t ++ rest) = true ->
               startswith old t = true) ->
  str_replace old new (x ++ rest) = str_replace old new x ++ str_replace old new rest.
Proof using Hold.
  intros Hno. rewrite !str_replace_scan by done. apply scan_replace_app; [done | lia].
Qed.

Lemma replace_hit y : str_replace old new (old ++ y) = new ++ str_replace old new y.
Proof using Hold.
  rewrite !str_replace_scan by done. destruct old as [|o old'] eqn:E; [done|].
  rewrite <- app_comm_cons, scan_sub_cons. unfold replace_matcher.
  rewrite app_comm_cons, startswith_app. simpl. by rewrite drop_app_length.
Qed.

(** A text in which no occurrence of [old] starts is copied. *)
Lemma replace_copy mid y :
  str_in old mid = false ->
  (forall c, c ∈ openers mid old -> head y <> Some c) ->
  str_replace old new (mid ++ y) = mid ++ str_replace old new y.
Proof using Hold.
  intros Hin Hop.
  rewrite replace_app.
  - by rewrite (str_replace_absent old new mid Hold (proj1 (str_in_false _ _) Hin)).
  - intros a t -> Ht Hs.
    destruct (startswith old t) eqn:E; [done|].
    destruct (openers_spec old (a ++ t) a t y eq_refl Ht Hs E) as (c & Hc & Hcin).
    by destruct (Hop c Hcin).
Qed.

Lemma no_straddle x mid y :
  (forall c, c ∈ blockers old mid -> last x <> Some c) ->
  forall a t, x = a ++ t -> t <> [] -> startswith old (t ++ mid ++ y) = true ->
              startswith old t = true.
Proof.
  intros Hbl a t Hx Ht Hs. destruct (startswith old t) eqn:E; [done|].
  destruct (blockers_spec old mid t y Ht Hs E) as (c & Hlast & Hin).
  destruct (Hbl c Hin). by rewrite (last_suffix x a t).
Qed.

(** An occurrence of [old] between [x] and [y] is replaced on its own when
    [x] does not end with a blocker. *)
Lemma replace_at x y :
  (forall c, c ∈ blockers old old -> last x <> Some c) ->
  str_replace old new (x ++ old ++ y)
  = str_replace old new x ++ new ++ str_replace old new y.
Proof using Hold.
  intros Hbl. rewrite replace_app by (by apply no_straddle). by rewrite replace_hit.
Qed.

(** A text [mid] between [x] and [y] is passed over when no occurrence of
    [old] can start in it or run into it. *)
Lemma replace_pass x mid y :
  (forall c, c ∈ blockers old mid -> last x <> Some c) ->
  str_in old mid = false ->
  (forall c, c ∈ openers mid old -> head y <> Some c) ->
  str_replace old new (x ++ mid ++ y)
  = str_replace old new x ++ mid ++ str_replace old new y.
Proof using Hold.
  intros Hbl Hin Hop. rewrite replace_app by (by apply no_straddle).
  by rewrite replace_copy.
Qed.

(** The last character stays when [old] and [new] end alike. *)
Lemma replace_last s :
  last new = last old -> last (str_replace old new s) = last s.
Proof using Hold.
  intros Hlast. rewrite str_replace_scan by done.
  remember (length s) as n eqn:Hn. revert s Hn.
  induction n as [n IH] using lt_wf_ind. intros s ->.
  destruct s as [|c t]; [done|].
  rewrite scan_sub_cons. destruct (replace_matcher old new (c :: t)) as [[rep k]|] eqn:E.
  - apply replace_matcher_some in E as (-> & -> & [r Hr]%startswith_spec).
    assert (Hd : drop (pred (length old)) t = r).
    { destruct old as [|o old']; [done|]. simpl in *. injection Hr as _ ->.
      by rewrite drop_app_length. }
    rewrite Hd, Hr, !last_app.
    rewrite (IH (length r)); [by rewrite Hlast | | done].
    apply (f_equal length) in Hr. rewrite length_app in Hr. simpl in Hr.
    destruct old; [done|]. simpl in *. lia.
  - rewrite !last_cons. rewrite (IH (length t)); [done | simpl; lia | done].
Qed.

(** The first character is kept, or is the first character of [new]. *)
Lemma replace_head s c :
  new <> [] -> head (str_replace old new s) = Some c ->
  head s = Some c \/ head new = Some c.
Proof using Hold.
  intros Hnew. rewrite str_replace_scan by done.
  destruct s as [|c0 t]; [done|].
  rewrite scan_sub_cons. destruct (replace_matcher old new (c0 :: t)) as [[rep k]|] eqn:E.
  - apply replace_matcher_some in E as (-> & _ & _).
    destruct new; [done|]. intros H. by right.
  - intros H. by left.
Qed.
End Cut.

(** ** The four Codex replacements at one occurrence *)

Lemma replace_head_not old new s c :
  old <> [] -> new <> [] -> head new <> Some c -> head s <> Some c ->
  head (str_replace old new s) <> Some c.
Proof. intros Hold Hnew Hn Hs H. by apply replace_head in H as [H|H]. Qed.

Ltac cut_side :=
  first
    [ py_nonempty
    | vm_compute; reflexivity
    | let c := fresh "c" in
      let Hc := fresh "Hc" in
      intros c Hc; vm_compute in Hc; by apply elem_of_nil in Hc ].

(** [templates/] becomes [assets/] wherever it stands. *)
Lemma rename_dirs_at_templates_dir (x y : pystr) :
  Codex.rename_dirs (x ++ py "templates/" ++ y)
  = Codex.rename_dirs x ++ py "assets/" ++ Codex.rename_dirs y.
Proof.
  unfold Codex.rename_dirs. cbv zeta.
  rewrite (replace_at (py "templates/") (py "assets/") ltac:(py_nonempty) x y) by cut_side.
  rewrite (replace_pass (py "docs/") (py "references/") ltac:(py_nonempty) _ (py "assets/"))
    by cut_side.
  rewrite (replace_pass (py "`templates`") (py "`assets`") ltac:(py_nonempty) _
             (py "assets/")) by cut_side.
  by rewrite (replace_pass (py "`docs`") (py "`references`") ltac:(py_nonempty) _
                (py "assets/")) by cut_side.
Qed.

(** [docs/] becomes [references/] wherever it stands. *)
Lemma rename_dirs_at_docs_dir (x y : pystr) :
  Codex.rename_dirs (x ++ py "docs/" ++ y)
  = Codex.rename_dirs x ++ py "references/" ++ Codex.rename_dirs y.
Proof.
  unfold Codex.rename_dirs. cbv zeta.
  rewrite (replace_pass (py "templates/") (py "assets/") ltac:(py_nonempty) x (py "docs/") y)
    by cut_side.
  rewrite (replace_at (py "docs/") (py "references/") ltac:(py_nonempty)) by cut_side.
  rewrite (replace_pass (py "`templates`") (py "`assets`") ltac:(py_nonempty) _
             (py "references/")) by cut_side.
  by rewrite (replace_pass (py "`docs`") (py "`references`") ltac:(py_nonempty) _
                (py "references/")) by cut_side.
Qed.

(** The characters [s] (115), [d] (100) and [t] (116). *)
Ltac only_char Hc :=
  vm_compute in Hc; apply elem_of_cons in Hc as [->|Hc]; [|by apply elem_of_nil in Hc].

(** The code span [`templates`] becomes [`assets`] where it does not stand
    right after an [s] nor right before a [d]: it then shares no backtick
    with a span [`templates`] or [`docs`] next to it. *)
Lemma rename_dirs_at_templates_span (x y : pystr) :
  last x <> Some 115%N -> head y <> Some 100%N ->
  Codex.rename_dirs (x ++ py "`templates`" ++ y)
  = Codex.rename_dirs x ++ py "`assets`" ++ Codex.rename_dirs y.
Proof.
  intros Hx Hy. unfold Codex.rename_dirs. cbv zeta.
  rewrite (replace_pass (py "templates/") (py "assets/") ltac:(py_nonempty) x
             (py "`templates`") y) by cut_side.
  rewrite (replace_pass (py "docs/") (py "references/") ltac:(py_nonempty) _
             (py "`templates`")) by cut_side.
  rewrite (replace_at (py "`templates`") (py "`assets`") ltac:(py_nonempty)).
  2:{ intros c Hc. only_char Hc. by rewrite !replace_last by cut_side. }
  rewrite (replace_pass (py "`docs`") (py "`references`") ltac:(py_nonempty) _
             (py "`assets`")).
  - done.
  - intros c Hc. only_char Hc. by rewrite !replace_last by cut_side.
  - vm_compute; reflexivity.
  - intros c Hc. only_char Hc.
    repeat (apply replace_head_not; [py_nonempty | py_nonempty | by vm_compute |]).
    done.
Qed.

(** The code span [`docs`] becomes [`references`] where it does not stand
    right after an [s] nor right before a [t]. *)
Lemma rename_dirs_at_docs_span (x y : pystr) :
  last x <> Some 115%N -> head y <> Some 116%N ->
  Codex.rename_dirs (x ++ py "`docs`" ++ y)
  = Codex.rename_dirs x ++ py "`references`" ++ Codex.rename_dirs y.
Proof.
  intros Hx Hy. unfold Codex.rename_dirs. cbv zeta.
  rewrite (replace_pass (py "templates/") (py "assets/") ltac:(py_nonempty) x
             (py "`docs`") y) by cut_side.
  rewrite (replace_pass (py "docs/") (py "references/") ltac:(py_nonempty) _
             (py "`docs`")) by cut_side.
  rewrite (replace_pass (py "`templates`") (py "`assets`") ltac:(py_nonempty) _
             (py "`docs`")).
  2:{ intros c Hc. only_char Hc. by rewrite !replace_last by cut_side. }
  2:{ vm_compute; reflexivity. }
  2:{ intros c Hc. only_char Hc.
      repeat (apply replace_head_not; [py_nonempty | py_nonempty | by vm_compute |]).
      done. }
  rewrite (replace_at (py "`docs`") (py "`references`") ltac:(py_nonempty)); [done|].
  intros c Hc. only_char Hc. by rewrite !replace_last by cut_side.
Qed.

(** ** Occurrences that a replacement leaves or makes at a shared character *)

Lemma starts_alike_spec h old new :
  starts_alike h old new = true ->
  forall a u, h = a ++ u -> u <> [] -> compat u new = true -> startswith u old = true.
Proof.
  intros H a. revert h H. induction a as [|c a IH]; intros h H u -> Hu Hc.
  - destruct u as [|d u]; [done|]. cbn [app starts_alike] in H.
    apply andb_true_iff in H as [H _]. by rewrite Hc in H.
  - cbn [app starts_alike] in H. apply andb_true_iff in H as [_ H].
    by apply (IH _ H).
Qed.

Lemma glues_spec rep old h a w :
  rep = a ++ w -> w <> [] -> startswith w h = true ->
  old ++ drop (length w) h ∈ glues rep old h.
Proof.
  revert rep. induction a as [|c a IH]; intros rep -> Hw Hs.
  - destruct w as [|d w]; [done|]. cbn [app glues]. rewrite Hs.
    apply elem_of_app. left. apply elem_of_cons. by left.
  - cbn [app glues]. apply elem_of_app. right. by apply IH.
Qed.

Lemma startswith_trans u v s :
  startswith u v = true -> startswith v s = true -> startswith u s = true.
Proof.
  intros [r1 ->]%startswith_spec [r2 ->]%startswith_spec.
  rewrite <- app_assoc. apply startswith_app.
Qed.

Section PullBack.
Variables old new h : pystr.
Hypothesis Hold : old <> [].
Hypothesis Hh : h <> [].
Hypothesis Hinside : str_in h new = false.
Hypothesis Halike : starts_alike h old new = true.

(** Where the output starts with a tail of [h], so does the input. *)
Lemma replace_startswith_inv a u s :
  h = a ++ u ->
  startswith u (scan_sub (replace_matcher old new) 0 s) = true ->
  startswith u s = true.
Proof using Halike.
  revert a s. induction u as [|c u IH]; intros a s Hau; [done|].
  destruct s as [|d t]; [done|]. rewrite scan_sub_cons.
  destruct (replace_matcher old new (d :: t)) as [[rep k]|] eqn:Hm.
  - apply replace_matcher_some in Hm as (-> & _ & Hs).
    intros E%startswith_app_compat.
    apply (startswith_trans _ old); [|done].
    by apply (starts_alike_spec _ _ _ Halike a (c :: u)).
  - simpl. intros [Hcd E]%andb_true_iff. rewrite Hcd. simpl.
    apply (IH (a ++ [c])); [by rewrite <- app_assoc | done].
Qed.

(** Every occurrence of [h] in the output starts where [h] starts in the
    input, or inside a replacement, where the input reads [old] and then
    the rest of [h]. *)
Lemma replace_pull_back s k :
  occurs_in h (scan_sub (replace_matcher old new) k s) ->
  (exists a s', drop k s = a ++ s' /\ startswith h s' = true /\
     (replace_matcher old new s' = None \/ compat h new = true)) \/
  (exists g, g ∈ glues (tail new) old h /\ occurs_in g (drop k s)).
Proof using Hold Hh Hinside Halike.
  revert k. induction s as [|c t IH]; intros k Hocc.
  { destruct k; simpl in Hocc; by apply occurs_in_nonempty in Hocc. }
  destruct k as [|k]; [|by apply IH].
  rewrite drop_0.
  assert (Hlater : forall j, occurs_in h (scan_sub (replace_matcher old new) j t) ->
            (exists a s', c :: t = a ++ s' /\ startswith h s' = true /\
               (replace_matcher old new s' = None \/ compat h new = true)) \/
            (exists g, g ∈ glues (tail new) old h /\ occurs_in g (c :: t))).
  { intros j [(a & s' & Hd & Hs)|(g & Hg & Hgo)]%IH.
    - left. exists (c :: take j t ++ a), s'. split; [|done].
      by rewrite <- app_comm_cons, <- app_assoc, <- Hd, take_drop.
    - right. exists g. split; [done|]. apply occurs_in_cons.
      rewrite <- (take_drop j t). by apply occurs_in_app_r. }
  assert (Hfront : startswith h (scan_sub (replace_matcher old new) 0 (c :: t)) = true ->
            startswith h (c :: t) = true).
  { by apply (replace_startswith_inv []). }
  rewrite scan_sub_cons in Hocc, Hfront.
  destruct (replace_matcher old new (c :: t)) as [[rep j]|] eqn:Hm.
  - pose proof Hm as (-> & -> & Hs)%replace_matcher_some.
    assert (Hrest : forall w b, scan_sub (replace_matcher old new) 0
                                  (drop (pred (length old)) t) = w ++ h ++ b ->
              (exists a s', c :: t = a ++ s' /\ startswith h s' = true /\
                 (replace_matcher old new s' = None \/ compat h new = true)) \/
              (exists g, g ∈ glues (tail new) old h /\ occurs_in g (c :: t))).
    { intros w b Hw. apply Hlater with (j := pred (length old)).
      rewrite scan_sub_skip, Hw. by exists w, b. }
    destruct Hocc as (a & b & Hab).
    symmetry in Hab. apply app_eq_inv in Hab as [(w & -> & Hw)|(w & Hn & Hw)];
      [by apply (Hrest w b)|].
    destruct a as [|a0 a].
    { left. exists [], (c :: t). split; [done|].
      assert (E : startswith h (new ++ scan_sub (replace_matcher old new) 0
                                         (drop (pred (length old)) t)) = true).
      { cbn [app] in Hn. subst w. rewrite <- Hw. apply startswith_app. }
      split; [by apply Hfront|]. right. by apply startswith_app_compat in E. }
    destruct w as [|w0 w]; [by apply (Hrest [] b)|].
    assert (Hc : compat h (w0 :: w) = true) by (by apply (compat_common _ _ _ _ Hw)).
    unfold compat in Hc. apply orb_true_iff in Hc as [Hc|Hc].
    { apply startswith_spec in Hc as [r Hr].
      assert (Hin : occurs_in h new) by (exists (a0 :: a), r; by rewrite Hn, Hr).
      apply str_in_spec in Hin. congruence. }
    right. exists (old ++ drop (length (w0 :: w)) h). split.
    { apply (glues_spec _ _ _ a); [by rewrite Hn | done | done]. }
    apply startswith_spec in Hc as [h' Hh'].
    rewrite Hh', drop_app_length.
    rewrite Hh', <- app_assoc in Hw. apply app_inv_head in Hw.
    assert (E : startswith h' (drop (pred (length old)) t) = true).
    { apply (replace_startswith_inv (w0 :: w)); [done|].
      rewrite <- Hw. apply startswith_app. }
    apply startswith_spec in Hs as [rest Hrest'].
    assert (Hd : drop (pred (length old)) t = rest).
    { destruct old as [|o old']; [done|]. simpl in *. injection Hrest' as _ ->.
      by rewrite drop_app_length. }
    rewrite Hd in E. apply startswith_spec in E as [r ->].
    exists [], r. by rewrite Hrest', <- app_assoc.
  - destruct Hocc as ([|a0 a] & b & Hab).
    + left. exists [], (c :: t). split; [done|]. split; [|by left].
      apply Hfront. rewrite Hab. cbn [app]. apply startswith_app.
    + injection Hab as _ Hab. apply Hlater with (j := 0). rewrite Hab. by exists a, b.
Qed.

(** [h] is not made by the replacement when every text from which it could
    be made holds [h] already. *)
Lemma replace_absent_glued s :
  forallb (str_in h) (glues (tail new) old h) = true ->
  ~ occurs_in h s -> ~ occurs_in h (str_replace old new s).
Proof using Hold Hh Hinside Halike.
  intros Hg Hns Hocc. rewrite str_replace_scan in Hocc by done.
  apply replace_pull_back in Hocc as [(a & s' & Hd & [r ->]%startswith_spec & _)
                                     |(g & Hgin & Hgo)].
  - apply Hns. rewrite drop_0 in Hd. by exists a, r.
  - rewrite drop_0 in Hgo. apply Hns.
    rewrite forallb_forall in Hg. apply list_elem_of_In, Hg, str_in_spec in Hgin.
    destruct Hgin as (a & b & ->), Hgo as (a' & b' & ->).
    exists (a' ++ a), (b ++ b'). by rewrite <- !app_assoc.
Qed.
End PullBack.

(** An occurrence of [old] left by the replacement comes from an occurrence
    of [old] that begins where a replaced one ends. *)
Lemma replace_left_over old new s :
  old <> [] -> str_in old new = false -> starts_alike old old new = true ->
  compat old new = false ->
  occurs_in old (str_replace old new s) ->
  exists g, g ∈ glues (tail new) old old /\ occurs_in g s.
Proof.
  intros Hold Hin Halike Hc Hocc. rewrite str_replace_scan in Hocc by done.
  apply replace_pull_back in Hocc as [(a & s' & _ & Hs & [Hm|Hm])|Hg]; [| | |done..].
  - unfold replace_matcher in Hm. by rewrite Hs in Hm.
  - congruence.
  - by rewrite drop_0 in Hg.
Qed.

(** No code span [`templates`] is left in a text that holds no two such
    spans sharing a backtick. *)
Lemma rename_dirs_no_templates_span s :
  ~ occurs_in (py "`templates`templates`") s ->
  ~ occurs_in (py "`templates`") (Codex.rename_dirs s).
Proof.
  intros HT. unfold Codex.rename_dirs. cbv zeta.
  apply (replace_absent (py "templates/") (py "assets/") ltac:(py_nonempty)) in HT;
    [|by vm_compute..].
  apply (replace_absent (py "docs/") (py "references/") ltac:(py_nonempty)) in HT;
    [|by vm_compute..].
  apply replace_absent_glued;
    [py_nonempty|py_nonempty|by vm_compute|by vm_compute|by vm_compute|].
  intros (g & Hg & Hgo)%replace_left_over;
    [|py_nonempty|by vm_compute|by vm_compute|by vm_compute].
  vm_compute in Hg. apply elem_of_cons in Hg as [->|Hg]; [|by apply elem_of_nil in Hg].
  by apply HT.
Qed.

(** No code span [`docs`] is left in a text that holds no two such spans
    sharing a backtick. *)
Lemma rename_dirs_no_docs_span s :
  ~ occurs_in (py "`docs`docs`") s ->
  ~ occurs_in (py "`docs`") (Codex.rename_dirs s).
Proof.
  intros HD. unfold Codex.rename_dirs. cbv zeta.
  apply (replace_absent (py "templates/") (py "assets/") ltac:(py_nonempty)) in HD;
    [|by vm_compute..].
  apply (replace_absent (py "docs/") (py "references/") ltac:(py_nonempty)) in HD;
    [|by vm_compute..].
  apply (replace_absent_glued (py "`templates`") (py "`assets`") (py "`docs`docs`")
           ltac:(py_nonempty) ltac:(py_nonempty) ltac:(by vm_compute)
           ltac:(by vm_compute)) in HD; [|by vm_compute].
  intros (g & Hg & Hgo)%replace_left_over;
    [|py_nonempty|by vm_compute|by vm_compute|by vm_compute].
  vm_compute in Hg. apply elem_of_cons in Hg as [->|Hg]; [|by apply elem_of_nil in Hg].
  by apply HD.
Qed.

(** ** Install path policy *)

(** C6.  OpenCode [default_install_path]: in every existence state where
    [<cwd>/.claude/skills] exists and [<cwd>/.opencode/skill] does not, the
    result is [<cwd>/.claude/skills]; when [<cwd>/.claude/skills] does not
    exist, the result is [<cwd>/.opencode/skill]. *)
Theorem opencode_install_path_precedence (env : Env) :
  (path_exists env (cwd env // py ".claude" // py "skills") = true ->
   path_exists env (cwd env // py ".opencode" // py "skill") = false ->
   OpenCode.default_install_path env = cwd env // py ".claude" // py "skills") /\
  (path_exists env (cwd env // py ".claude" // py "skills") = false ->
   OpenCode.default_install_path env = cwd env // py ".opencode" // py "skill").
Proof.
  unfold OpenCode.default_install_path. split.
  - by intros -> _.
  - by intros ->.
Qed.

Lemma opencode_install_path_precedence_witness :
  OpenCode.default_install_path Samples.env_claude_only
    = Samples.project // py ".claude" // py "skills" /\
  OpenCode.default_install_path Samples.env_bare
    = Samples.project // py ".opencode" // py "skill".
Proof.
  split.
  - apply (proj1 (opencode_install_path_precedence Samples.env_claude_only));
      vm_compute; reflexivity.
  - apply (proj2 (opencode_install_path_precedence Samples.env_bare));
      vm_compute; reflexivity.
Defined.

(** C9.  OpenCode [default_install_path] does not look at
    [<cwd>/.opencode/skill]: two existence states with the same working
    directory that agree on whether [<cwd>/.claude/skills] exists give the
    same path. *)
Theorem opencode_install_path_ignores_own_dir (env1 env2 : Env) :
  cwd env1 = cwd env2 ->
  path_exists env1 (cwd env1 // py ".claude" // py "skills")
    = path_exists env2 (cwd env2 // py ".claude" // py "skills") ->
  OpenCode.default_install_path env1 = OpenCode.default_install_path env2.
Proof.
  unfold OpenCode.default_install_path. intros Hcwd Hex.
  rewrite Hex, Hcwd. done.
Qed.

Lemma opencode_install_path_ignores_own_dir_witness :
  path_exists Samples.env_claude_only (Samples.project // py ".opencode" // py "skill")
    <> path_exists Samples.env_both (Samples.project // py ".opencode" // py "skill") /\
  OpenCode.default_install_path Samples.env_claude_only
    = OpenCode.default_install_path Samples.env_both.
Proof.
  split.
  - vm_compute. discriminate.
  - apply (opencode_install_path_ignores_own_dir Samples.env_claude_only Samples.env_both);
      vm_compute; reflexivity.
Defined.

(** ** The usage section *)

(** C8.  For each adapter and every content, the empty one included, the
    result of [transform_skill_md] holds the adapter's usage heading; in
    particular it is never empty. *)
Theorem transform_skill_md_has_heading common (a : adapter) content skill_name :
  occurs_in (usage_heading a) (transform_skill_md common a content skill_name) /\
  transform_skill_md common a content skill_name <> [].
Proof.
  assert (H : occurs_in (usage_heading a) (transform_skill_md common a content skill_name)).
  { rewrite transform_skill_md_unfold. cbv zeta.
    destruct (str_in _ _) eqn:E.
    - by apply str_in_spec.
    - apply occurs_in_app_r, heading_in_section. }
  split; [done|]. apply (occurs_in_nonempty (usage_heading a)); [by destruct a | done].
Qed.

(** ** Detection *)

(** C10.  [_needs_shared_modules] answers [True] exactly when some
    string-valued entry of the scripts holds one of ["from shared"],
    ["import shared"], ["lsp_client"], ["code_analyzer"]; entries that are
    not strings are skipped whatever bytes they hold. *)
Theorem needs_shared_modules_iff (a : adapter) (scripts : gmap pystr file_content) :
  (_needs_shared_modules a scripts = true <->
   exists k s, scripts !! k = Some (Str s) /\
     (occurs_in (py "from shared") s \/ occurs_in (py "import shared") s \/
      occurs_in (py "lsp_client") s \/ occurs_in (py "code_analyzer") s)) /\
  ((forall k v, scripts !! k = Some v -> exists b, v = Bytes b) ->
   _needs_shared_modules a scripts = false).
Proof.
  split; [apply needs_shared_modules_spec|].
  intros Hb. apply not_true_is_false. intros (k & s & Hk & _)%needs_shared_modules_spec.
  by destruct (Hb _ _ Hk).
Qed.

Lemma needs_shared_modules_iff_witness :
  _needs_shared_modules CodexAdapter Samples.binary_script = false.
Proof.
  apply (proj2 (needs_shared_modules_iff CodexAdapter Samples.binary_script)).
  intros k v. unfold Samples.binary_script.
  intros [_ <-]%lookup_singleton_Some. eauto.
Defined.

(** ** Bundling *)




(** C7.  For every adapter's [transform_skill], a bundled file staged under
    [shared/<relpath>] replaces an entry the scripts already hold at that
    key: the call succeeds, the mapping holds the bundled content there,
    and the entries at keys the bundle does not write are unchanged. *)
Theorem bundled_file_overwrites unicode_word super_transform_skill shared_dir
    (a : adapter) source_dir output shared_modules path content previous :
  super_transform_skill source_dir = Ok output ->
  _needs_shared_modules a (scripts output) = true ->
  _bundle_shared_modules unicode_word a shared_dir = Ok shared_modules ->
  shared_modules !! path = Some content ->
  scripts output !! (py "shared/" ++ path) = Some previous ->
  exists result,
    transform_skill unicode_word super_transform_skill shared_dir a source_dir = Ok result /\
    scripts result !! (py "shared/" ++ path) = Some content /\
    skill_md result = skill_md output /\
    (forall k, (forall p, k = py "shared/" ++ p -> shared_modules !! p = None) ->
               scripts result !! k = scripts output !! k).
Proof.
  intros Hsuper Hneeds Hbundle Hpath _.
  eexists. split; [apply (transform_skill_ok _ _ _ _ _ _ _ Hsuper Hneeds Hbundle)|].
  cbn [scripts skill_md].
  destruct (merge_shared_lookup (scripts output) shared_modules) as [H1 H2].
  split; [by apply H1|]. split; [done|]. apply H2.
Qed.

Lemma bundled_file_overwrites_witness :
  exists result,
    transform_skill Samples.ascii_only (fun _ => Ok Samples.output_with_stale_copy)
      Samples.root_lsp_only GeminiAdapter Samples.skill_dir = Ok result /\
    scripts result !! py "shared/lsp-engine/client.py"
      = Some (Str (py "from shared.foo import bar")).
Proof.
  destruct (bundled_file_overwrites Samples.ascii_only
              (fun _ => Ok Samples.output_with_stale_copy) Samples.root_lsp_only
              GeminiAdapter Samples.skill_dir Samples.output_with_stale_copy
              {[ py "lsp-engine/client.py" := Str (py "from shared.foo import bar") ]}
              (py "lsp-engine/client.py") (Str (py "from shared.foo import bar"))
              (Str (py "stale copy")))
    as (result & Hres & Hkey & _); try (vm_compute; reflexivity).
  exists result. split; [exact Hres | exact Hkey].
Defined.

(** C2, as the code has it.  For every adapter's [transform_skill]: when a
    string-valued script holds one of the four substrings and bundling
    succeeds, every file bundling collected is in the returned mapping under
    [shared/<relpath>]; so the mapping has a key prefixed [shared/] whenever
    at least one shared-module file was collected, and when none was the
    base output is returned as it is. *)
Theorem bundling_adds_shared_keys unicode_word super_transform_skill shared_dir
    (a : adapter) source_dir output shared_modules :
  super_transform_skill source_dir = Ok output ->
  (exists k s, scripts output !! k = Some (Str s) /\
     (occurs_in (py "from shared") s \/ occurs_in (py "import shared") s \/
      occurs_in (py "lsp_client") s \/ occurs_in (py "code_analyzer") s)) ->
  _bundle_shared_modules unicode_word a shared_dir = Ok shared_modules ->
  exists result,
    transform_skill unicode_word super_transform_skill shared_dir a source_dir = Ok result /\
    (forall p c, shared_modules !! p = Some c ->
                 scripts result !! (py "shared/" ++ p) = Some c) /\
    (shared_modules <> ∅ ->
     exists k, startswith (py "shared/") k = true /\ is_Some (scripts result !! k)) /\
    (shared_modules = ∅ -> result = output).
Proof.
  intros Hsuper Hneeds Hbundle. apply (needs_shared_modules_spec a) in Hneeds.
  eexists. split; [apply (transform_skill_ok _ _ _ _ _ _ _ Hsuper Hneeds Hbundle)|].
  cbn [scripts skill_md].
  destruct (merge_shared_lookup (scripts output) shared_modules) as [H1 _].
  split; [exact H1|]. split.
  - intros (p & c & Hp)%map_choose. exists (py "shared/" ++ p).
    split; [apply startswith_app|]. exists c. apply (H1 _ _ Hp).
  - intros ->. unfold merge_shared. rewrite map_fold_empty. by destruct output.
Qed.

Lemma bundling_adds_shared_keys_witness :
  exists result,
    transform_skill Samples.ascii_only (fun _ => Ok Samples.output_importing)
      Samples.root_lsp_only CodexAdapter Samples.skill_dir = Ok result /\
    scripts result !! py "shared/lsp-engine/client.py"
      = Some (Str (py "from shared.foo import bar")).
Proof.
  destruct (bundling_adds_shared_keys Samples.ascii_only
              (fun _ => Ok Samples.output_importing) Samples.root_lsp_only
              CodexAdapter Samples.skill_dir Samples.output_importing
              {[ py "lsp-engine/client.py" := Str (py "from shared.foo import bar") ]})
    as (result & Hres & Hkeys & _).
  - reflexivity.
  - exists (py "validate.py"), (py "import shared"). split; [vm_compute; reflexivity|].
    right; left. apply str_in_spec. vm_compute; reflexivity.
  - vm_compute; reflexivity.
  - exists result. split; [exact Hres|]. apply Hkeys. vm_compute; reflexivity.
Defined.

(** C2 as stated fails: a script imports the shared namespace, no shared
    subtree exists on disk, and the Codex [transform_skill] returns the
    scripts with no key prefixed [shared/]. *)
Lemma bundling_completeness_counterexample :
  _needs_shared_modules CodexAdapter (scripts Samples.output_importing) = true /\
  transform_skill Samples.ascii_only (fun _ => Ok Samples.output_importing)
    Samples.root_absent CodexAdapter Samples.skill_dir = Ok Samples.output_importing /\
  ~ exists k, startswith (py "shared/") k = true /\
              is_Some (scripts Samples.output_importing !! k).
Proof.
  split; [vm_compute; reflexivity|]. split; [vm_compute; reflexivity|].
  intros (k & Hk & [v Hv]). unfold Samples.output_importing in Hv. simpl in Hv.
  apply lookup_singleton_Some in Hv as [<- _]. vm_compute in Hk. discriminate.
Qed.

(** ** The manifest transformation *)




(** C4, as the code has it.  For each adapter: when the common transforms
    leave the usage heading in the first result, a second
    [transform_skill_md] appends nothing: its result is the first result
    after the common transforms (and the Codex renames), with no more
    occurrences of the heading than that text had.  When [skill_name] does
    not hold the heading, the first result holds it exactly once if the
    transformed body of the input held it at most once, and the second
    result holds it exactly once if the common-transformed first result
    holds it at most once. *)
Theorem second_application_appends_nothing common (a : adapter) content skill_name :
  (occurs_in (usage_heading a) (common (transform_skill_md common a content skill_name)) ->
   transform_skill_md common a (transform_skill_md common a content skill_name) skill_name
     = body_renames a (common (transform_skill_md common a content skill_name)) /\
   occurrences (usage_heading a)
     (transform_skill_md common a (transform_skill_md common a content skill_name)
        skill_name)
     <= occurrences (usage_heading a)
          (common (transform_skill_md common a content skill_name))) /\
  (~ occurs_in (usage_heading a) skill_name ->
   occurrences (usage_heading a) (body_renames a (common content)) <= 1 ->
   occurrences (usage_heading a) (transform_skill_md common a content skill_name) = 1) /\
  (~ occurs_in (usage_heading a) skill_name ->
   occurrences (usage_heading a)
     (common (transform_skill_md common a content skill_name)) <= 1 ->
   occurrences (usage_heading a)
     (transform_skill_md common a (transform_skill_md common a content skill_name)
        skill_name) = 1).
Proof.
  split; [|split].
  - intros H.
    assert (Hb : occurs_in (usage_heading a)
                   (body_renames a
                      (common (transform_skill_md common a content skill_name)))).
    { destruct a; [done | by apply rename_dirs_keeps_heading | done]. }
    rewrite (transform_skill_md_unfold common a (transform_skill_md _ _ _ _)). cbv zeta.
    apply str_in_spec in Hb. rewrite Hb. split; [done|].
    apply body_renames_no_new_heading.
  - apply transform_skill_md_once.
  - intros Hname Hle. apply transform_skill_md_once; [done|].
    etrans; [apply body_renames_no_new_heading | done].
Qed.

Lemma second_application_appends_nothing_witness :
  occurrences (py "## Codex CLI Usage")
    (transform_skill_md Samples.leave_unchanged CodexAdapter
       (transform_skill_md Samples.leave_unchanged CodexAdapter
          (py "Uses templates/ and docs/ for output.") (py "sf-apex"))
       (py "sf-apex"))
  <= occurrences (py "## Codex CLI Usage")
       (transform_skill_md Samples.leave_unchanged CodexAdapter
          (py "Uses templates/ and docs/ for output.") (py "sf-apex")) /\
  occurrences (py "## Codex CLI Usage")
    (transform_skill_md Samples.leave_unchanged CodexAdapter
       (transform_skill_md Samples.leave_unchanged CodexAdapter
          (py "Uses templates/ and docs/ for output.") (py "sf-apex"))
       (py "sf-apex")) = 1.
Proof.
  split.
  - refine (proj2 (proj1 (second_application_appends_nothing Samples.leave_unchanged
                            CodexAdapter (py "Uses templates/ and docs/ for output.")
                            (py "sf-apex")) _)).
    apply str_in_spec. vm_compute; reflexivity.
  - refine (proj2 (proj2 (second_application_appends_nothing Samples.leave_unchanged
                            CodexAdapter (py "Uses templates/ and docs/ for output.")
                            (py "sf-apex"))) _ _).
    + apply str_in_false. vm_compute; reflexivity.
    + vm_compute. lia.
Defined.

(** C4 as stated fails: a manifest that already holds the OpenCode heading
    twice still holds it twice after two applications. *)
Lemma usage_heading_twice_counterexample :
  occurrences (py "## OpenCode CLI Usage")
    (OpenCode.transform_skill_md Samples.leave_unchanged
       (OpenCode.transform_skill_md Samples.leave_unchanged
          Samples.manifest_two_headings (py "sf-apex"))
       (py "sf-apex")) = 2.
Proof. vm_compute; reflexivity. Qed.

(** ** The import rewrite of the bundled files *)




(** * Further properties of the adapters *)

(** ** [transform_skill]: when nothing is bundled, and when it fails *)

Lemma merge_shared_inv (base mods : gmap pystr file_content) k v :
  merge_shared base mods !! k = Some v ->
  base !! k = Some v \/ exists p, k = py "shared/" ++ p /\ mods !! p = Some v.
Proof.
  unfold merge_shared. revert k v.
  apply (map_fold_weak_ind (fun r (m : gmap pystr file_content) =>
    forall k v, r !! k = Some v ->
      base !! k = Some v \/ exists p, k = py "shared/" ++ p /\ m !! p = Some v)).
  - intros k v. by left.
  - intros i x m r Hi IH k v.
    destruct (decide (py "shared/" ++ i = k)) as [<-|Hne].
    + rewrite lookup_insert_eq. intros [= <-]. right. exists i.
      by rewrite lookup_insert_eq.
    + rewrite lookup_insert_ne by done.
      intros [Hb|(p & -> & Hp)]%IH; [by left|].
      right. exists p. split; [done|]. rewrite lookup_insert_ne; [done|].
      by intros ->.
Qed.

(** X1.  For every adapter: when no string-valued script of the base output
    holds one of the four substrings, [transform_skill] returns the base
    output as it is, whatever the shared root holds; the shared root is not
    read, so a file there that cannot be read does no harm. *)
Theorem transform_skill_without_references unicode_word super_transform_skill shared_dir
    (a : adapter) source_dir output :
  super_transform_skill source_dir = Ok output ->
  (forall k s, scripts output !! k = Some (Str s) -> ~ mentions_shared s) ->
  transform_skill unicode_word super_transform_skill shared_dir a source_dir = Ok output.
Proof.
  intros Hsuper Hnone. rewrite transform_skill_unfold, Hsuper. simpl.
  destruct (_needs_shared_modules a (scripts output)) eqn:E; [|done].
  apply needs_shared_modules_spec in E as (k & s & Hk & Hs). by destruct (Hnone k s).
Qed.

Lemma transform_skill_without_references_witness :
  transform_skill Samples.ascii_only (fun _ => Ok MoreSamples.output_plain)
    MoreSamples.root_unreadable OpenCodeAdapter Samples.skill_dir
  = Ok MoreSamples.output_plain.
Proof.
  apply (transform_skill_without_references Samples.ascii_only
           (fun _ => Ok MoreSamples.output_plain) MoreSamples.root_unreadable
           OpenCodeAdapter Samples.skill_dir MoreSamples.output_plain).
  - reflexivity.
  - intros k s Hk. unfold MoreSamples.output_plain in Hk. cbn [scripts] in Hk.
    apply lookup_singleton_Some in Hk as [_ [= <-]].
    rewrite <- mentions_sharedb_spec. apply not_true_iff_false.
    vm_compute; reflexivity.
Defined.

(** X2.  For every adapter, [transform_skill] raises exactly when the
    inherited transformation raises, or when the scripts call for bundling
    and bundling raises; the exception is passed on unchanged and no output
    is returned. *)
Theorem transform_skill_raises unicode_word super_transform_skill shared_dir
    (a : adapter) source_dir e :
  transform_skill unicode_word super_transform_skill shared_dir a source_dir = Raise e <->
  super_transform_skill source_dir = Raise e \/
  exists output, super_transform_skill source_dir = Ok output /\
                 _needs_shared_modules a (scripts output) = true /\
                 _bundle_shared_modules unicode_word a shared_dir = Raise e.
Proof.
  rewrite transform_skill_unfold.
  destruct (super_transform_skill source_dir) as [output|e'] eqn:Hsuper; simpl.
  - destruct (_needs_shared_modules a (scripts output)) eqn:Hneeds.
    + destruct (_bundle_shared_modules unicode_word a shared_dir) as [mods|e''] eqn:Hb;
        simpl.
      * split; [done|]. intros [?|(o & [= <-] & _ & ?)]; congruence.
      * split.
        -- intros [= ->]. right. by exists output.
        -- intros [?|(o & [= <-] & _ & [= ->])]; done.
    + split; [done|]. intros [?|(o & [= <-] & ? & _)]; congruence.
  - split.
    + intros [= ->]. by left.
    + intros [[= ->]|(o & ? & _)]; done.
Qed.

Lemma transform_skill_raises_witness :
  transform_skill Samples.ascii_only (fun _ => Ok Samples.output_importing)
    MoreSamples.root_unreadable GeminiAdapter Samples.skill_dir
  = Raise (ReadError (PermissionError (py "broken.py"))).
Proof.
  apply (proj2 (transform_skill_raises Samples.ascii_only
                  (fun _ => Ok Samples.output_importing) MoreSamples.root_unreadable
                  GeminiAdapter Samples.skill_dir
                  (ReadError (PermissionError (py "broken.py"))))).
  right. exists Samples.output_importing.
  split; [reflexivity|]. split; vm_compute; reflexivity.
Defined.

(** X3.  For every adapter, a successful [transform_skill] keeps the
    manifest of the base output, leaves every entry whose key does not
    start with [shared/] exactly as the base output had it, and adds
    nothing but bundled files: each entry of the result is an entry of the
    base output or a bundled file under [shared/<relpath>]. *)
Theorem transform_skill_scripts unicode_word super_transform_skill shared_dir
    (a : adapter) source_dir result :
  transform_skill unicode_word super_transform_skill shared_dir a source_dir = Ok result ->
  exists output,
    super_transform_skill source_dir = Ok output /\
    skill_md result = skill_md output /\
    (forall k, startswith (py "shared/") k = false ->
               scripts result !! k = scripts output !! k) /\
    (forall k v, scripts result !! k = Some v ->
       scripts output !! k = Some v \/
       exists p shared_modules,
         k = py "shared/" ++ p /\
         _bundle_shared_modules unicode_word a shared_dir = Ok shared_modules /\
         shared_modules !! p = Some v).
Proof.
  intros H. rewrite transform_skill_unfold in H.
  destruct (super_transform_skill source_dir) as [output|] eqn:Hsuper; [|done].
  simpl in H. destruct (_needs_shared_modules a (scripts output)).
  - destruct (_bundle_shared_modules unicode_word a shared_dir) as [mods|]; [|done].
    simpl in H. injection H as <-. exists output. cbn [scripts skill_md].
    split; [done|]. split; [done|]. split.
    + intros k Hk. apply merge_shared_lookup. intros p ->.
      by rewrite startswith_app in Hk.
    + intros k v [?|(p & -> & Hp)]%merge_shared_inv; [by left|].
      right. by exists p, mods.
  - injection H as <-. exists output. repeat split. intros k v ?. by left.
Qed.

Lemma transform_skill_scripts_witness :
  exists output,
    (fun _ : Path => Ok Samples.output_with_stale_copy) Samples.skill_dir = Ok output /\
    forall k, startswith (py "shared/") k = false ->
      merge_shared (scripts Samples.output_with_stale_copy)
        {[ py "lsp-engine/client.py" := Str (py "from shared.foo import bar") ]} !! k
      = scripts output !! k.
Proof.
  destruct (transform_skill_scripts Samples.ascii_only
              (fun _ => Ok Samples.output_with_stale_copy) Samples.root_lsp_only
              CodexAdapter Samples.skill_dir
              {| skill_md := skill_md Samples.output_with_stale_copy;
                 scripts := merge_shared (scripts Samples.output_with_stale_copy)
                   {[ py "lsp-engine/client.py"
                        := Str (py "from shared.foo import bar") ]} |})
    as (output & Hsuper & _ & Hkeep & _).
  - vm_compute; reflexivity.
  - exists output. split; [exact Hsuper | exact Hkeep].
Defined.

(** ** [_bundle_shared_modules]: what is staged, and what is not *)

(** X4.  For every adapter, each entry of a successful bundle is the text
    of a readable file listed in one of the two subtrees, stored under
    [<subtree>/<relpath>]: from [lsp-engine] only [.py] files, from
    [code_analyzer] only [.py], [.yml] and [.xml] files; the text is passed
    through the adapter's import rewrite if the file is a [.py] file and is
    stored unchanged otherwise.  No entry holds bytes. *)
Theorem bundle_entries unicode_word (a : adapter) root m k v :
  _bundle_shared_modules unicode_word a root = Ok m -> m !! k = Some v ->
  (exists tree p c, lsp_engine root = Some tree /\ (p, Text c) ∈ tree /\
     endswith (py ".py") p = true /\
     k = rel_path (py "lsp-engine") p /\ v = Str (py_rewrite unicode_word a c)) \/
  (exists tree p c, code_analyzer root = Some tree /\ (p, Text c) ∈ tree /\
     k = rel_path (py "code_analyzer") p /\
     (endswith (py ".py") p = true /\ v = Str (py_rewrite unicode_word a c) \/
      endswith (py ".yml") p = true /\ v = Str c \/
      endswith (py ".xml") p = true /\ v = Str c)).
Proof. rewrite bundle_shared_modules_rewrite. apply bundle_with_inv. Qed.

Lemma bundle_entries_witness :
  (exists tree p c, lsp_engine Samples.root_lsp_only = Some tree /\ (p, Text c) ∈ tree /\
     endswith (py ".py") p = true /\
     py "lsp-engine/client.py" = rel_path (py "lsp-engine") p /\
     Str (py "from .shared.foo import bar")
       = Str (py_rewrite Samples.ascii_only OpenCodeAdapter c)) \/
  (exists tree p c, code_analyzer Samples.root_lsp_only = Some tree /\ (p, Text c) ∈ tree /\
     py "lsp-engine/client.py" = rel_path (py "code_analyzer") p /\
     (endswith (py ".py") p = true /\
      Str (py "from .shared.foo import bar")
        = Str (py_rewrite Samples.ascii_only OpenCodeAdapter c) \/
      endswith (py ".yml") p = true /\ Str (py "from .shared.foo import bar") = Str c \/
      endswith (py ".xml") p = true /\ Str (py "from .shared.foo import bar") = Str c)).
Proof.
  apply (bundle_entries Samples.ascii_only OpenCodeAdapter Samples.root_lsp_only
           {[ py "lsp-engine/client.py" := Str (py "from .shared.foo import bar") ]}
           (py "lsp-engine/client.py") (Str (py "from .shared.foo import bar")));
    vm_compute; reflexivity.
Defined.

(** X5.  For every adapter, a file that bundling does not look for is never
    staged: after a successful bundle there is no entry for a file of
    [lsp-engine] that is not a [.py] file, nor for a file of
    [code_analyzer] that is neither [.py], [.yml] nor [.xml]. *)
Theorem bundle_skips_other_files unicode_word (a : adapter) root m p :
  _bundle_shared_modules unicode_word a root = Ok m ->
  (endswith (py ".py") p = false -> m !! rel_path (py "lsp-engine") p = None) /\
  (endswith (py ".py") p = false -> endswith (py ".yml") p = false ->
   endswith (py ".xml") p = false -> m !! rel_path (py "code_analyzer") p = None).
Proof.
  rewrite bundle_shared_modules_eq. intros Hm. split.
  - intros Hpy. destruct (m !! _) as [v|] eqn:Hv; [|done].
    destruct (bundle_with_inv _ _ _ _ _ Hm Hv)
      as [(t & q & c & _ & _ & Hq & ->%rel_path_inj & _)
         |(t & q & c & _ & _ & Hk & _)].
    + congruence.
    + symmetry in Hk. by apply rel_path_dir_ne in Hk.
  - intros Hpy Hyml Hxml. destruct (m !! _) as [v|] eqn:Hv; [|done].
    destruct (bundle_with_inv _ _ _ _ _ Hm Hv)
      as [(t & q & c & _ & _ & _ & Hk & _)
         |(t & q & c & _ & _ & ->%rel_path_inj & [[? _]|[[? _]|[? _]]])].
    + by apply rel_path_dir_ne in Hk.
    + congruence.
    + congruence.
    + congruence.
Qed.

Lemma bundle_skips_other_files_witness :
  ({[ py "lsp-engine/client.py" := Str (py "from .shared.foo import bar");
      py "code_analyzer/analyzer.py" := Str (py "from . import shared.rules");
      py "code_analyzer/config.yml" := Str (py "from shared.x: 1");
      py "code_analyzer/rules/pmd.xml" := Str (py "<ruleset/>") ]}
     : gmap pystr file_content) !! rel_path (py "lsp-engine") (py "servers.yml") = None.
Proof.
  apply (proj1 (bundle_skips_other_files Samples.ascii_only OpenCodeAdapter
                  MoreSamples.root_full _ (py "servers.yml") ltac:(vm_compute; reflexivity))).
  vm_compute; reflexivity.
Defined.

(** X6.  For every adapter, the OpenCode adapter included, a readable
    [.yml] or [.xml] file of [code_analyzer] is staged with its text
    unchanged under [code_analyzer/<relpath>]; the import rewrite is not
    applied to configuration files, even where their text holds
    [from shared.]. *)
Theorem bundle_config_unchanged unicode_word (a : adapter) root m tree p c :
  _bundle_shared_modules unicode_word a root = Ok m ->
  code_analyzer root = Some tree -> NoDup tree.*1 -> (p, Text c) ∈ tree ->
  endswith (py ".yml") p = true \/ endswith (py ".xml") p = true ->
  m !! rel_path (py "code_analyzer") p = Some (Str c).
Proof. rewrite bundle_shared_modules_eq. apply bundle_with_lookup_config. Qed.

Lemma bundle_config_unchanged_witness :
  ({[ py "lsp-engine/client.py" := Str (py "from .shared.foo import bar");
      py "code_analyzer/analyzer.py" := Str (py "from . import shared.rules");
      py "code_analyzer/config.yml" := Str (py "from shared.x: 1");
      py "code_analyzer/rules/pmd.xml" := Str (py "<ruleset/>") ]}
     : gmap pystr file_content) !! rel_path (py "code_analyzer") (py "config.yml")
  = Some (Str (py "from shared.x: 1")).
Proof.
  apply (bundle_config_unchanged Samples.ascii_only OpenCodeAdapter MoreSamples.root_full _
           [(py "analyzer.py", Text (py "import shared.rules"));
            (py "rules/pmd.xml", Text (py "<ruleset/>"));
            (py "config.yml", Text (py "from shared.x: 1"));
            (py "notes.txt", Text (py "not bundled"))]).
  - vm_compute; reflexivity.
  - reflexivity.
  - apply (bool_decide_unpack _). vm_compute. exact I.
  - rewrite !elem_of_cons. tauto.
  - left. vm_compute; reflexivity.
Defined.

(** ** [_bundle_shared_modules]: the order of the listing *)

Lemma rglob_Permutation ext (l l' : Tree) : l ≡ₚ l' -> rglob ext l ≡ₚ rglob ext l'.
Proof.
  unfold rglob. induction 1 as [|x l l' _ IH|x y l|l l' l'' _ IH1 _ IH2]; simpl.
  - done.
  - destruct (endswith ext x.1); [by constructor | done].
  - destruct (endswith ext x.1), (endswith ext y.1); try done. constructor.
  - by etrans.
Qed.

Lemma same_mapping_trans r1 r2 r3 :
  same_mapping r1 r2 -> same_mapping r2 r3 -> same_mapping r1 r3.
Proof. destruct r1, r2, r3; simpl; try done. congruence. Qed.

(** With one entry per path, a loop gives the same mapping in any order;
    where a file cannot be read, every order raises. *)
Lemma stage_files_Permutation dir rw (files files' : Tree) acc :
  files ≡ₚ files' -> NoDup files.*1 ->
  same_mapping (stage_files dir rw files acc) (stage_files dir rw files' acc).
Proof.
  intros Hp. revert acc.
  induction Hp as [|[p d] l l' Hp IH|[p d] [q d'] l|l l' l'' Hp1 IH1 Hp2 IH2];
    intros acc Hnd.
  - done.
  - cbn in Hnd. apply NoDup_cons in Hnd as [_ Hnd].
    simpl. destruct d as [c|why]; simpl; [by apply IH | done].
  - cbn in Hnd. apply NoDup_cons in Hnd as [Hq _].
    simpl. destruct d as [c|why], d' as [c'|why']; simpl; try done.
    + rewrite insert_insert_ne.
      * by destruct (stage_files dir rw l _).
      * intros ->%rel_path_inj. apply Hq. apply elem_of_cons. by left.
  - eapply same_mapping_trans; [by apply IH1|]. apply IH2. by rewrite <- Hp1.
Qed.

Lemma bundle_with_Permutation rw root root' :
  same_listing (lsp_engine root) (lsp_engine root') ->
  same_listing (code_analyzer root) (code_analyzer root') ->
  same_mapping (bundle_with rw root) (bundle_with rw root').
Proof.
  unfold bundle_with, same_listing. intros Hl Ha.
  assert (E1 : same_mapping
               match lsp_engine root with
               | Some lsp_dir =>
                   stage_files (py "lsp-engine") rw (rglob (py ".py") lsp_dir) ∅
               | None => Ok ∅
               end
               match lsp_engine root' with
               | Some lsp_dir =>
                   stage_files (py "lsp-engine") rw (rglob (py ".py") lsp_dir) ∅
               | None => Ok ∅
               end).
  { destruct (lsp_engine root) as [l|], (lsp_engine root') as [l'|]; try done.
    destruct Hl as [Hp Hnd].
    apply stage_files_Permutation; [by apply rglob_Permutation | by apply NoDup_rglob]. }
  destruct (match lsp_engine root with Some _ => _ | None => _ end) as [m1|],
    (match lsp_engine root' with Some _ => _ | None => _ end) as [m1'|]; try done.
  simpl in E1. subst m1'. simpl.
  destruct (code_analyzer root) as [t|], (code_analyzer root') as [t'|]; try done.
  destruct Ha as [Hp Hnd].
  pose proof (stage_files_Permutation (py "code_analyzer") rw _ _ m1
                (rglob_Permutation (py ".py") _ _ Hp) (NoDup_rglob _ _ Hnd)) as E2.
  destruct (stage_files _ _ (rglob (py ".py") t) m1) as [m2|],
    (stage_files _ _ (rglob (py ".py") t') m1) as [m2'|]; try done.
  simpl in E2. subst m2'. simpl.
  pose proof (stage_files_Permutation (py "code_analyzer") (fun c => c) _ _ m2
                (rglob_Permutation (py ".yml") _ _ Hp) (NoDup_rglob _ _ Hnd)) as E3.
  destruct (stage_files _ _ (rglob (py ".yml") t) m2) as [m3|],
    (stage_files _ _ (rglob (py ".yml") t') m2) as [m3'|]; try done.
  simpl in E3. subst m3'. simpl.
  apply stage_files_Permutation; [by apply rglob_Permutation | by apply NoDup_rglob].
Qed.

(** X7.  For every adapter, whether bundling succeeds and the mapping it
    returns do not depend on the order in which [rglob] lists the files:
    of two states of the shared root with the same entries in each subtree,
    one entry per path, either both give the same mapping or both raise.
    Which exception is raised is that of the first unreadable file met, so
    it is not claimed to be the same. *)
Theorem bundle_order_independent unicode_word (a : adapter) root root' :
  same_listing (lsp_engine root) (lsp_engine root') ->
  same_listing (code_analyzer root) (code_analyzer root') ->
  (forall m, _bundle_shared_modules unicode_word a root = Ok m ->
     _bundle_shared_modules unicode_word a root' = Ok m) /\
  (forall e, _bundle_shared_modules unicode_word a root = Raise e ->
     exists e', _bundle_shared_modules unicode_word a root' = Raise e').
Proof.
  rewrite !bundle_shared_modules_rewrite. intros Hl Ha.
  pose proof (bundle_with_Permutation (py_rewrite unicode_word a) root root' Hl Ha) as H.
  destruct (bundle_with _ root) as [m|e], (bundle_with _ root') as [m'|e'];
    simpl in H; try done.
  - subst m'. split; [by intros ? [= <-] | done].
  - split; [done|]. intros _ _. by exists e'.
Qed.

Lemma bundle_order_independent_witness :
  _bundle_shared_modules Samples.ascii_only OpenCodeAdapter MoreSamples.root_full_reordered
  = Ok ({[ py "lsp-engine/client.py" := Str (py "from .shared.foo import bar");
           py "code_analyzer/analyzer.py" := Str (py "from . import shared.rules");
           py "code_analyzer/config.yml" := Str (py "from shared.x: 1");
           py "code_analyzer/rules/pmd.xml" := Str (py "<ruleset/>") ]}
          : gmap pystr file_content).
Proof.
  refine (proj1 (bundle_order_independent Samples.ascii_only OpenCodeAdapter
                   MoreSamples.root_full MoreSamples.root_full_reordered _ _) _ _).
  - split; [apply perm_swap | apply (bool_decide_unpack _); vm_compute; exact I].
  - split; [apply perm_swap | apply (bool_decide_unpack _); vm_compute; exact I].
  - vm_compute; reflexivity.
Defined.

(** ** [_bundle_shared_modules]: the adapters against each other *)

Lemma stage_files_same_outcome dir rw rw' files acc acc' :
  dom acc = dom acc' ->
  same_outcome (stage_files dir rw files acc) (stage_files dir rw' files acc').
Proof.
  revert acc acc'. induction files as [|[p d] rest IH]; intros acc acc' Hdom; simpl.
  - done.
  - destruct d as [c|why]; simpl; [|done]. apply IH. by rewrite !dom_insert_L, Hdom.
Qed.

Lemma bundle_with_same_outcome rw rw' root :
  same_outcome (bundle_with rw root) (bundle_with rw' root).
Proof.
  unfold bundle_with.
  assert (H1 : same_outcome
            match lsp_engine root with
            | Some lsp_dir => stage_files (py "lsp-engine") rw (rglob (py ".py") lsp_dir) ∅
            | None => Ok ∅
            end
            match lsp_engine root with
            | Some lsp_dir => stage_files (py "lsp-engine") rw' (rglob (py ".py") lsp_dir) ∅
            | None => Ok ∅
            end).
  { destruct (lsp_engine root); [by apply stage_files_same_outcome | done]. }
  destruct (match lsp_engine root with Some l => stage_files _ rw _ ∅ | None => _ end)
    as [m1|], (match lsp_engine root with Some l => stage_files _ rw' _ ∅ | None => _ end)
    as [m1'|]; try done. simpl in *.
  destruct (code_analyzer root) as [t|]; [|done].
  pose proof (stage_files_same_outcome (py "code_analyzer") rw rw'
                (rglob (py ".py") t) m1 m1' H1) as H2.
  destruct (stage_files _ rw (rglob (py ".py") t) m1) as [m2|],
    (stage_files _ rw' (rglob (py ".py") t) m1') as [m2'|]; try done. simpl in *.
  pose proof (stage_files_same_outcome (py "code_analyzer") (fun c => c) (fun c => c)
                (rglob (py ".yml") t) m2 m2' H2) as H3.
  destruct (stage_files _ _ (rglob (py ".yml") t) m2) as [m3|],
    (stage_files _ _ (rglob (py ".yml") t) m2') as [m3'|]; try done. simpl in *.
  by apply stage_files_same_outcome.
Qed.

(** X8.  On the same shared root any two adapters bundle the same files:
    both succeed with the same set of keys, or both raise the same
    exception; the OpenCode rewrite changes texts, never which files are
    staged.  The Codex and Gemini bundles are equal. *)
Theorem bundle_same_files unicode_word (a a' : adapter) root :
  (forall m, _bundle_shared_modules unicode_word a root = Ok m ->
     exists m', _bundle_shared_modules unicode_word a' root = Ok m' /\ dom m = dom m') /\
  (forall e, _bundle_shared_modules unicode_word a root = Raise e ->
     _bundle_shared_modules unicode_word a' root = Raise e) /\
  Codex._bundle_shared_modules root = Gemini._bundle_shared_modules root.
Proof.
  rewrite !bundle_shared_modules_rewrite.
  pose proof (bundle_with_same_outcome (py_rewrite unicode_word a)
                (py_rewrite unicode_word a') root) as H.
  destruct (bundle_with (py_rewrite unicode_word a) root) as [m|e],
    (bundle_with (py_rewrite unicode_word a') root) as [m'|e']; simpl in H; try done.
  - split; [|done]. intros ? [= <-]. by exists m'.
  - subst e'. split; [done|]. split; [|done]. by intros ? [= <-].
Qed.

Lemma bundle_same_files_witness :
  exists m', _bundle_shared_modules Samples.ascii_only CodexAdapter MoreSamples.root_full
               = Ok m' /\
    dom ({[ py "lsp-engine/client.py" := Str (py "from .shared.foo import bar");
            py "code_analyzer/analyzer.py" := Str (py "from . import shared.rules");
            py "code_analyzer/config.yml" := Str (py "from shared.x: 1");
            py "code_analyzer/rules/pmd.xml" := Str (py "<ruleset/>") ]}
           : gmap pystr file_content) = dom m'.
Proof.
  apply (proj1 (bundle_same_files Samples.ascii_only OpenCodeAdapter CodexAdapter
                  MoreSamples.root_full)).
  vm_compute; reflexivity.
Defined.

(** ** The rewrites on a text that holds none of their patterns *)

(** A substitution whose replacement is at least as long as its literal
    never shortens the text, and lengthens it where the pattern occurs. *)
Lemma re_sub_word_length unicode_word lit rep s k :
  length lit <= length rep ->
  length (drop k s) <= length (scan_sub (word_matcher unicode_word lit rep) k s).
Proof.
  intros Hlen. revert k. induction s as [|c t IH]; intros k; [by destruct k|].
  destruct k as [|k]; [|apply IH]. simpl scan_sub.
  destruct (word_matcher unicode_word lit rep (c :: t)) as [[r k]|] eqn:Hm.
  - apply word_matcher_some in Hm as (W & rest & Hs & _ & -> & Hk & _).
    assert (Hl : length (c :: t) = length lit + length W + length rest)
      by (rewrite Hs, !length_app; lia).
    specialize (IH k). rewrite length_drop in IH. simpl in *.
    rewrite !length_app. lia.
  - specialize (IH 0). rewrite drop_0 in IH. simpl. lia.
Qed.

Lemma re_sub_word_longer unicode_word lit rep s x :
  length lit < length rep -> is_word unicode_word x = true ->
  occurs_in (lit ++ [x]) s -> length s < length (re_sub_word unicode_word lit rep s).
Proof.
  intros Hlen Hx. unfold re_sub_word.
  enough (forall k, occurs_in (lit ++ [x]) (drop k s) ->
            length (drop k s)
            < length (scan_sub (word_matcher unicode_word lit rep) k s)) as E
    by apply (E 0).
  induction s as [|c t IH]; intros k.
  - destruct k; intros (a & b & Hab); destruct a, lit; discriminate.
  - destruct k as [|k]; [|apply IH].
    change (drop 0 (c :: t)) with (c :: t). intros Hocc. simpl scan_sub.
    destruct (word_matcher unicode_word lit rep (c :: t)) as [[r k]|] eqn:Hm.
    + apply word_matcher_some in Hm as (W & rest & Hs & _ & -> & Hk & _).
      assert (Hl : length (c :: t) = length lit + length W + length rest)
        by (rewrite Hs, !length_app; lia).
      pose proof (re_sub_word_length unicode_word lit rep t k ltac:(lia)) as Hle.
      rewrite length_drop in Hle. simpl in *. rewrite !length_app. lia.
    + apply str_in_spec in Hocc. simpl in Hocc. apply orb_true_iff in Hocc as [E|E].
      * apply startswith_spec in E as [r' E]. rewrite <- app_assoc in E. simpl in E.
        rewrite E in Hm. by apply word_matcher_hit in Hm.
      * apply str_in_spec in E. specialize (IH 0 E). rewrite drop_0 in IH. simpl. lia.
Qed.

(** X9.  [_rewrite_shared_imports] returns its argument unchanged exactly
    when the text holds neither [from shared.] nor [import shared.]
    followed by a word character. *)
Theorem rewrite_shared_imports_fixpoint unicode_word content :
  OpenCode._rewrite_shared_imports unicode_word content = content <->
  forall x, is_word unicode_word x = true ->
    ~ occurs_in (py "from shared." ++ [x]) content /\
    ~ occurs_in (py "import shared." ++ [x]) content.
Proof.
  unfold OpenCode._rewrite_shared_imports. cbv zeta. split.
  - intros Heq.
    pose proof (re_sub_word_length unicode_word (py "from shared.") (py "from .shared.")
                  content 0 ltac:(vm_compute; lia)) as H1.
    pose proof (re_sub_word_length unicode_word (py "import shared.")
                  (py "from . import shared.")
                  (re_sub_word unicode_word (py "from shared.") (py "from .shared.") content)
                  0 ltac:(vm_compute; lia)) as H2.
    fold (re_sub_word unicode_word (py "from shared.") (py "from .shared.") content) in H1.
    fold (re_sub_word unicode_word (py "import shared.") (py "from . import shared.")
            (re_sub_word unicode_word (py "from shared.") (py "from .shared.") content))
      in H2.
    rewrite Heq in H2. rewrite !drop_0 in *.
    assert (Hfrom : forall y, is_word unicode_word y = true ->
              ~ occurs_in (py "from shared." ++ [y]) content).
    { intros y Hy Hocc.
      apply (re_sub_word_longer unicode_word _ (py "from .shared.")) in Hocc;
        [lia | vm_compute; lia | done]. }
    rewrite (re_sub_word_absent _ (py "from shared.") _ _ Hfrom) in Heq.
    intros x Hx. split; [by apply Hfrom|]. intros Hocc.
    apply (re_sub_word_longer unicode_word _ (py "from . import shared.")) in Hocc;
      [|vm_compute; lia|done].
    rewrite Heq in Hocc. lia.
  - intros H. rewrite (re_sub_word_absent _ (py "from shared.")) by (intros x Hx; by apply H).
    apply re_sub_word_absent. intros x Hx. by apply H.
Qed.

Lemma rewrite_shared_imports_fixpoint_witness :
  OpenCode._rewrite_shared_imports Samples.ascii_only (py "from shared.foo import bar")
  <> py "from shared.foo import bar".
Proof.
  intros Heq.
  apply (proj1 (proj1 (rewrite_shared_imports_fixpoint Samples.ascii_only
                         (py "from shared.foo import bar")) Heq 102%N
                  ltac:(vm_compute; reflexivity))).
  apply str_in_spec. vm_compute; reflexivity.
Defined.

(** X10.  The four Codex replacements leave a text unchanged when it holds
    none of [templates/], [docs/], [`templates`] and [`docs`]. *)
Theorem rename_dirs_absent content :
  ~ occurs_in (py "templates/") content -> ~ occurs_in (py "docs/") content ->
  ~ occurs_in (py "`templates`") content -> ~ occurs_in (py "`docs`") content ->
  Codex.rename_dirs content = content.
Proof.
  intros H1 H2 H3 H4. unfold Codex.rename_dirs. cbv zeta.
  rewrite (str_replace_absent (py "templates/")) by (done || py_nonempty).
  rewrite (str_replace_absent (py "docs/")) by (done || py_nonempty).
  rewrite (str_replace_absent (py "`templates`")) by (done || py_nonempty).
  apply str_replace_absent; [py_nonempty | done].
Qed.

Lemma rename_dirs_absent_witness :
  Codex.rename_dirs (py "See scripts/README.md and the docs folder.")
  = py "See scripts/README.md and the docs folder.".
Proof.
  apply rename_dirs_absent; apply str_in_false; vm_compute; reflexivity.
Defined.

(** ** [_rewrite_shared_imports]: the [import shared.] form *)

(** X11.  Where a text holds [import shared.] followed by a word character,
    the text returned by [_rewrite_shared_imports] holds
    [from . import shared.]: the second pattern is rewritten to that form,
    and the first substitution does not hide it. *)
Theorem rewrite_import_form unicode_word content x :
  is_word unicode_word x = true ->
  occurs_in (py "import shared." ++ [x]) content ->
  occurs_in (py "from . import shared.")
    (OpenCode._rewrite_shared_imports unicode_word content).
Proof.
  intros Hx Hocc. unfold OpenCode._rewrite_shared_imports. cbv zeta.
  destruct (scan_keeps_word unicode_word (py "from shared.") (py "from .shared.")
              (py "import shared.") ltac:(by vm_compute) ltac:(by vm_compute)
              ltac:(eexists _, _; split; vm_compute; reflexivity) content 0)
    as (y & Hy & Hoccy).
  { exists x. by rewrite drop_0. }
  by apply (re_sub_word_creates _ _ _ _ y).
Qed.

Lemma rewrite_import_form_witness :
  occurs_in (py "from . import shared.")
    (OpenCode._rewrite_shared_imports Samples.ascii_only
       (py "import shared.code_analyzer")).
Proof.
  apply (rewrite_import_form Samples.ascii_only (py "import shared.code_analyzer") 99%N).
  - vm_compute; reflexivity.
  - apply str_in_spec. vm_compute; reflexivity.
Defined.

Lemma rewrite_longer_on_import unicode_word content x :
  is_word unicode_word x = true ->
  occurs_in (py "import shared." ++ [x]) content ->
  length content < length (OpenCode._rewrite_shared_imports unicode_word content) /\
  exists y, is_word unicode_word y = true /\
    occurs_in (py "import shared." ++ [y])
      (OpenCode._rewrite_shared_imports unicode_word content).
Proof.
  intros Hx Hocc. unfold OpenCode._rewrite_shared_imports. cbv zeta.
  destruct (scan_keeps_word unicode_word (py "from shared.") (py "from .shared.")
              (py "import shared.") ltac:(by vm_compute) ltac:(by vm_compute)
              ltac:(eexists _, _; split; vm_compute; reflexivity) content 0)
    as (y & Hy & Hoccy).
  { exists x. by rewrite drop_0. }
  fold (re_sub_word unicode_word (py "from shared.") (py "from .shared.") content) in Hoccy.
  split.
  - pose proof (re_sub_word_length unicode_word (py "from shared.") (py "from .shared.")
                  content 0 ltac:(vm_compute; lia)) as H1.
    rewrite drop_0 in H1.
    fold (re_sub_word unicode_word (py "from shared.") (py "from .shared.") content) in H1.
    apply (re_sub_word_longer unicode_word _ (py "from . import shared.")) in Hoccy;
      [lia | vm_compute; lia | done].
  - destruct (re_sub_word_creates_word unicode_word _ (py "from . import shared.") _ y
                Hy Hoccy) as (z & Hz & Hoccz).
    exists z. split; [done|]. destruct Hoccz as (a & b & ->).
    exists (a ++ py "from . "), b.
    change (py "from . import shared.") with (py "from . " ++ py "import shared.").
    by rewrite <- !app_assoc.
Qed.

(** X16.  [_rewrite_shared_imports] is not idempotent on the import form:
    for a text that holds [import shared.] followed by a word character,
    rewriting the rewritten text changes it again, because
    [from . import shared.<name>] still holds [import shared.<name>]. *)
Theorem rewrite_import_not_idempotent unicode_word content x :
  is_word unicode_word x = true ->
  occurs_in (py "import shared." ++ [x]) content ->
  OpenCode._rewrite_shared_imports unicode_word
    (OpenCode._rewrite_shared_imports unicode_word content)
  <> OpenCode._rewrite_shared_imports unicode_word content.
Proof.
  intros Hx Hocc.
  destruct (rewrite_longer_on_import unicode_word content x Hx Hocc)
    as (_ & y & Hy & Hoccy).
  destruct (rewrite_longer_on_import unicode_word _ y Hy Hoccy) as [Hlen _].
  intros Heq. rewrite Heq in Hlen. lia.
Qed.

Lemma rewrite_import_not_idempotent_witness :
  OpenCode._rewrite_shared_imports Samples.ascii_only
    (OpenCode._rewrite_shared_imports Samples.ascii_only (py "import shared.code_analyzer"))
  <> OpenCode._rewrite_shared_imports Samples.ascii_only (py "import shared.code_analyzer").
Proof.
  apply (rewrite_import_not_idempotent Samples.ascii_only
           (py "import shared.code_analyzer") 99%N).
  - vm_compute; reflexivity.
  - apply str_in_spec. vm_compute; reflexivity.
Defined.

(** ** [transform_skill_md] applied to its own result *)

Lemma transform_skill_md_heading common (a : adapter) content skill_name :
  occurs_in (usage_heading a) (transform_skill_md common a content skill_name).
Proof.
  rewrite transform_skill_md_unfold. cbv zeta. destruct (str_in _ _) eqn:E.
  - by apply str_in_spec.
  - apply occurs_in_app_r, heading_in_section.
Qed.

(** X12.  For the OpenCode and Gemini adapters, [transform_skill_md] is
    idempotent on every manifest whose first result the common transforms
    leave unchanged: the second application returns the first result. *)
Theorem transform_skill_md_idempotent common (a : adapter) content skill_name :
  a <> CodexAdapter ->
  common (transform_skill_md common a content skill_name)
    = transform_skill_md common a content skill_name ->
  transform_skill_md common a (transform_skill_md common a content skill_name) skill_name
    = transform_skill_md common a content skill_name.
Proof.
  intros Ha Hfix.
  rewrite (transform_skill_md_unfold common a (transform_skill_md _ _ _ _)). cbv zeta.
  assert (Hb : body_renames a (common (transform_skill_md common a content skill_name))
               = transform_skill_md common a content skill_name)
    by (by destruct a).
  rewrite Hb.
  pose proof (transform_skill_md_heading common a content skill_name) as H.
  apply str_in_spec in H. by rewrite H.
Qed.

Lemma transform_skill_md_idempotent_witness :
  transform_skill_md Samples.leave_unchanged GeminiAdapter
    (transform_skill_md Samples.leave_unchanged GeminiAdapter (py "# sf-apex") (py "sf-apex"))
    (py "sf-apex")
  = transform_skill_md Samples.leave_unchanged GeminiAdapter (py "# sf-apex") (py "sf-apex").
Proof.
  apply (transform_skill_md_idempotent Samples.leave_unchanged GeminiAdapter
           (py "# sf-apex") (py "sf-apex")).
  - discriminate.
  - reflexivity.
Defined.

(** X13.  The Codex [transform_skill_md] is not idempotent where it
    appended its usage section: if the heading was absent from the body and
    the common transforms keep it in the first result, the second
    application renames the directory names inside the section itself, so
    its result holds no [templates/] while the first result does, and the
    two differ. *)
Theorem codex_reapplied_rewrites_section common content skill_name :
  ~ occurs_in (py "## Codex CLI Usage") (Codex.rename_dirs (common content)) ->
  occurs_in (py "## Codex CLI Usage")
    (common (Codex.transform_skill_md common content skill_name)) ->
  occurs_in (py "templates/") (Codex.transform_skill_md common content skill_name) /\
  ~ occurs_in (py "templates/")
      (Codex.transform_skill_md common
         (Codex.transform_skill_md common content skill_name) skill_name) /\
  Codex.transform_skill_md common
    (Codex.transform_skill_md common content skill_name) skill_name
  <> Codex.transform_skill_md common content skill_name.
Proof.
  intros Habsent Hkept.
  assert (H1 : occurs_in (py "templates/")
                 (Codex.transform_skill_md common content skill_name)).
  { unfold Codex.transform_skill_md at 1. cbv zeta.
    apply str_in_false in Habsent. rewrite Habsent. simpl negb. cbv iota.
    apply occurs_in_app_r. unfold Codex.codex_section. rewrite !app_assoc.
    apply occurs_in_app_r, str_in_spec. vm_compute; reflexivity. }
  assert (H2 : ~ occurs_in (py "templates/")
                 (Codex.transform_skill_md common
                    (Codex.transform_skill_md common content skill_name) skill_name)).
  { unfold Codex.transform_skill_md at 1. cbv zeta.
    apply rename_dirs_keeps_heading, str_in_spec in Hkept. rewrite Hkept.
    simpl negb. cbv iota. apply rename_dirs_no_templates. }
  split; [done|]. split; [done|]. intros Heq. by rewrite Heq in H2.
Qed.

Lemma codex_reapplied_rewrites_section_witness :
  Codex.transform_skill_md Samples.leave_unchanged
    (Codex.transform_skill_md Samples.leave_unchanged (py "# sf-apex") (py "sf-apex"))
    (py "sf-apex")
  <> Codex.transform_skill_md Samples.leave_unchanged (py "# sf-apex") (py "sf-apex").
Proof.
  apply (codex_reapplied_rewrites_section Samples.leave_unchanged (py "# sf-apex")
           (py "sf-apex")).
  - apply str_in_false. vm_compute; reflexivity.
  - apply str_in_spec. vm_compute; reflexivity.
Defined.

(** ** Install paths and the registry *)

Lemma joinpath_inj (p q : Path) a b c d : p // a // b = q // c // d -> a = c /\ b = d.
Proof.
  unfold joinpath. intros [[_ ?]%app_inj_tail ?]%app_inj_tail. done.
Qed.

(** X14.  In every state of the environment two different adapters choose
    different install directories: the directory of one adapter is never
    the directory of another, whichever of OpenCode's two candidates
    exists. *)
Theorem install_paths_distinct (a a' : adapter) env :
  a <> a' -> default_install_path a env <> default_install_path a' env.
Proof.
  intros Hne Heq.
  destruct a, a'; try done;
    unfold default_install_path, OpenCode.default_install_path,
      Codex.default_install_path, Gemini.default_install_path in Heq;
    cbv zeta in Heq;
    try destruct (path_exists env _);
    apply joinpath_inj in Heq as [Heq _]; vm_compute in Heq; discriminate Heq.
Qed.

Lemma install_paths_distinct_witness :
  default_install_path OpenCodeAdapter Samples.env_claude_only
  <> default_install_path CodexAdapter Samples.env_claude_only.
Proof.
  apply (install_paths_distinct OpenCodeAdapter CodexAdapter Samples.env_claude_only).
  discriminate.
Defined.

(** X15.  The registry and the adapters agree on names: looking up a name
    in [ADAPTERS] gives an adapter exactly when the name is that adapter's
    [cli_name]; any other name is not registered. *)
Theorem registry_matches_cli_name name (a : adapter) :
  registry_get ADAPTERS name = Some a <-> name = cli_name a.
Proof.
  unfold ADAPTERS, registry_get. split.
  - repeat case_bool_decide; intros [= <-]; by subst.
  - intros ->. by destruct a.
Qed.

Lemma registry_matches_cli_name_witness :
  registry_get ADAPTERS (py "claude") = None.
Proof.
  destruct (registry_get ADAPTERS (py "claude")) as [a|] eqn:E; [|reflexivity].
  apply (proj1 (registry_matches_cli_name (py "claude") a)) in E.
  destruct a; vm_compute in E; discriminate E.
Defined.
